(** * labkit: a shallow embedding of [src/labkit.ts]

    The program reads [openlab.yaml] from a base directory, builds an
    environment mapping and shells out to git, python/conda and the
    configured scripts.  The embedding keeps the program's shape:

    - a YAML document parsed by [jsr:@std/yaml] is a JavaScript value
      ([value]); the TypeScript [Config] interface is erased at run time, so
      every function below works on [value] and follows the run-time
      semantics of the operators the source uses ([in], [?.], template
      literals, truthiness, [for ... of]);
    - exceptions are the [Throw] case of [result]; the file system, the YAML
      parser and the outcome of child processes are fields of a [World];
    - the side effects that matter ([fs.chmodSync] and [execSync]) are
      recorded, in order, in a trace of [event]s threaded by the monad [M].

    Console output is not modelled: no [console.log] argument of the source
    can throw where the statement after it would not.  A number is a
    double: a safe integer is kept as that integer, any other double by the
    text [Number.prototype.toString] gives for it, which is all the program
    ever asks of a number.  YAML timestamps and binary scalars are outside
    [value]. *)

From stdpp Require Import base option list strings pretty gmap.
From Stdlib Require Import ZArith Ascii.

(** ** JavaScript values and the errors the program can raise *)

#[local] Set Warnings "-register-all".

(** A JavaScript number is an IEEE double.  [VNumber n] is the double that
    is the integer [n], for [n] a safe integer ([safe_integer] below: up to
    [2^53 - 1] in absolute value), the range in which such a double prints
    as the decimal numeral of [n].  Every other double ([1.2], [1e21],
    [NaN], [Infinity]) is a [VDouble] that carries the text
    [Number.prototype.toString] gives for it (["1.2"], ["1e+21"], ["NaN"],
    ["Infinity"]); the double [-0] is [VNumber 0], from which no operator
    the program uses tells it apart. *)
Inductive value : Type :=
| VUndefined
| VNull
| VBool (b : bool)
| VNumber (n : Z)
| VDouble (text : string)
| VString (s : string)
| VArray (l : list value)
| VObject (o : list (string * value)).

(** [Number.isSafeInteger], on an integer. *)
Definition safe_integer (n : Z) : bool := (Z.abs n <? 2 ^ 53)%Z.

(** [Error] is [new Error(msg)]; the other three are also instances of
    [Error] for the handler of [main], but their message is the engine's
    or the operating system's. *)
Inductive error : Type :=
| Error (msg : string)
| TypeError
| SyntaxError (msg : string)
| SystemError.

Inductive result (A : Type) : Type :=
| Ok (a : A)
| Throw (e : error).
Arguments Ok {A} a.
Arguments Throw {A} e.

Definition rbind {A B} (r : result A) (k : A → result B) : result B :=
  match r with
  | Ok a => k a
  | Throw e => Throw e
  end.

Notation "'let?' x := r 'in' k" := (rbind r (fun x => k))
  (at level 10, x name, r at level 100, k at level 200).

(** Own properties of an object built from a YAML mapping (keys are unique
    in a parsed mapping; the first binding is the one found). *)
Fixpoint own_property (k : string) (o : list (string * value)) : option value :=
  match o with
  | [] => None
  | (k', v) :: o' => if String.eqb k k' then Some v else own_property k o'
  end.

(** Property names every ordinary object inherits from [Object.prototype]. *)
Definition object_prototype_keys : list string :=
  [ "constructor"; "__defineGetter__"; "__defineSetter__"; "hasOwnProperty";
    "__lookupGetter__"; "__lookupSetter__"; "isPrototypeOf";
    "propertyIsEnumerable"; "toString"; "valueOf"; "__proto__";
    "toLocaleString" ].

(** Property names an array inherits from [Array.prototype]. *)
Definition array_prototype_keys : list string :=
  [ "at"; "concat"; "copyWithin"; "fill"; "find"; "findIndex"; "findLast";
    "findLastIndex"; "lastIndexOf"; "pop"; "push"; "reverse"; "shift";
    "unshift"; "slice"; "sort"; "splice"; "includes"; "indexOf"; "join";
    "keys"; "entries"; "values"; "forEach"; "filter"; "flat"; "flatMap";
    "map"; "every"; "some"; "reduce"; "reduceRight"; "toReversed";
    "toSorted"; "toSpliced"; "with" ].

Definition inherited_from_object (k : string) : bool :=
  bool_decide (k ∈ object_prototype_keys).

Definition owns (k : string) (o : list (string * value)) : bool :=
  match own_property k o with Some _ => true | None => false end.

(** The index a property name denotes, if it is the decimal numeral of one
    (an array owns the properties "0", "1", ... below its length). *)
Definition digit (c : ascii) : option nat :=
  let n := nat_of_ascii c in
  if (48 <=? n)%nat && (n <=? 57)%nat then Some (n - 48)%nat else None.

Fixpoint decimal (s : string) (acc : nat) : option nat :=
  match s with
  | EmptyString => Some acc
  | String c s' =>
      match digit c with
      | Some d => decimal s' (10 * acc + d)%nat
      | None => None
      end
  end.

Definition array_index (k : string) : option nat :=
  match k with
  | EmptyString => None
  | String c rest =>
      if Ascii.eqb c "0"%char
      then (if String.eqb rest "" then Some 0%nat else None)
      else decimal k 0
  end.

(** JavaScript truthiness, as tested by [if (x)] and [!x]. *)
Definition truthy (v : value) : bool :=
  match v with
  | VUndefined | VNull => false
  | VBool b => b
  | VNumber n => negb (n =? 0)%Z
  | VDouble text => negb (String.eqb text "NaN")
  | VString s => negb (String.eqb s "")
  | VArray _ | VObject _ => true
  end.

Definition isArray (v : value) : bool :=
  match v with VArray _ => true | _ => false end.

(** [v.name], for the property names the program reads (none of them is
    defined by a built-in prototype, an array index or [length]). *)
Definition get_prop (v : value) (name : string) : result value :=
  match v with
  | VUndefined | VNull => Throw TypeError
  | VObject o => Ok (default VUndefined (own_property name o))
  | _ => Ok VUndefined
  end.

(** [v?.name] *)
Definition get_prop_opt (v : value) (name : string) : result value :=
  match v with
  | VUndefined | VNull => Ok VUndefined
  | _ => get_prop v name
  end.

(** [k in v]: own and inherited properties; a [TypeError] on a primitive. *)
Definition has_property (k : string) (v : value) : result bool :=
  match v with
  | VObject o => Ok (owns k o || inherited_from_object k)
  | VArray l =>
      Ok (match array_index k with
          | Some i => (i <? length l)%nat
          | None => false
          end
          || String.eqb k "length"
          || bool_decide (k ∈ array_prototype_keys)
          || inherited_from_object k)
  | _ => Throw TypeError
  end.

(** The ToString conversion of template literals and property keys.  A
    safe integer prints as its decimal numeral, any other double as the text
    it carries.  An object whose own [toString] shadows the inherited method
    cannot be converted (a YAML value is never callable). *)
Fixpoint to_string (v : value) : result string :=
  match v with
  | VUndefined => Ok "undefined"
  | VNull => Ok "null"
  | VBool true => Ok "true"
  | VBool false => Ok "false"
  | VNumber n => Ok (pretty n)
  | VDouble text => Ok text
  | VString s => Ok s
  | VArray l =>
      let element (x : value) : result string :=
        match x with
        | VUndefined | VNull => Ok ""
        | _ => to_string x
        end in
      (fix join (l : list value) : result string :=
         match l with
         | [] => Ok ""
         | [x] => element x
         | x :: rest =>
             let? s := element x in
             let? r := join rest in
             Ok (s +:+ "," +:+ r)
         end) l
  | VObject o =>
      if owns "toString" o
      then Throw TypeError
      else Ok "[object Object]"
  end.

(** [v.toString()] *)
Definition call_toString (v : value) : result string :=
  match v with
  | VUndefined | VNull => Throw TypeError
  | _ => to_string v
  end.

(** The values a [for ... of] loop visits: the elements of an array, the
    characters of a string (each a one-character string, which has none of
    the properties the program reads); anything else is not iterable. *)
Definition iterate (v : value) : result (list value) :=
  match v with
  | VArray l => Ok l
  | VString s => Ok ((fun c => VString (String c "")) <$> String.list_ascii_of_string s)
  | _ => Throw TypeError
  end.

(** [s.endsWith(suffix)] *)
Definition endsWith (s suffix : string) : bool :=
  let n := String.length s in
  let m := String.length suffix in
  (m <=? n)%nat && String.eqb (String.substring (n - m) m s) suffix.

(** [script.endsWith('.sh')] on a run-time value: only a string has the
    method. *)
Definition script_text (script : value) : result string :=
  match script with
  | VString s => Ok s
  | _ => Throw TypeError
  end.

Definition dquote : string := String "034"%char "".

(** ** Side effects: the trace of child processes and permission changes *)

(** The options of one [execSync] call.  [None] is an option the call does
    not pass: [child_process] then takes its default (the platform's default
    shell, the environment of the running process, its working directory). *)
Record spawn : Type := Spawn {
  command : string;
  shell : option string;
  env : option (gmap string value);
  cwd : option string
}.

Inductive event : Type :=
| EvChmod (path mode : string)
| EvExec (s : spawn).

(** What the program cannot decide by itself.  The outcome of a permission
    change or of a child process may depend on everything done before it. *)
Record World : Type := {
  process_env : gmap string string;
  path_join : string → string → string;
  existsSync : string → bool;
  readFileSync : string → result string;
  parse : string → result value;
  chmodSync : list event → string → string → bool;
  execSync : list event → spawn → bool
}.

(** State (the trace so far) and exceptions. *)
Definition M (A : Type) : Type := list event → list event * result A.

Definition ret {A} (a : A) : M A := fun tr => (tr, Ok a).
Definition lift {A} (r : result A) : M A := fun tr => (tr, r).
Definition bind {A B} (m : M A) (k : A → M B) : M B :=
  fun tr =>
    match m tr with
    | (tr', Ok a) => k a tr'
    | (tr', Throw e) => (tr', Throw e)
    end.

Notation "'do' x <- m ; k" := (bind m (fun x => k))
  (at level 10, x name, m at level 100, k at level 200).
Notation "m ;; k" := (bind m (fun _ => k))
  (at level 100, k at level 200, right associativity).

(** [for (const x of l) body(x)] *)
Fixpoint for_of {A} (l : list A) (body : A → M unit) : M unit :=
  match l with
  | [] => ret tt
  | x :: l' => body x ;; for_of l' body
  end.

(** [fs.chmodSync(path, mode)] *)
Definition chmod (w : World) (path mode : string) : M unit :=
  fun tr =>
    (tr ++ [EvChmod path mode],
     if chmodSync w tr path mode then Ok tt else Throw SystemError).

(** [execSync(command, options)]: blocks until the child exits and throws
    when it did not exit with status 0. *)
Definition exec (w : World) (s : spawn) : M unit :=
  fun tr =>
    (tr ++ [EvExec s],
     if execSync w tr s then Ok tt else Throw SystemError).

(** ** The program *)

Definition requiredProps : list string :=
  [ "appId"; "source"; "scripts"; "appRepository"; "appVersion"; "appDirectory" ].

(** The loop over [requiredProps] (lines 53 to 58). *)
Fixpoint check_required (props : list string) (config : value) : result unit :=
  match props with
  | [] => Ok tt
  | prop :: props' =>
      let? present := has_property prop config in
      if negb present
      then Throw (Error ("Missing required property in config: " +:+ prop))
      else check_required props' config
  end.

(** The test of the [scripts] object (lines 60 to 63); [||] evaluates its
    right operand only when the left one is false. *)
Definition check_scripts (config : value) : result unit :=
  let invalid := Throw (Error "Invalid scripts configuration in config") in
  let? scripts := get_prop config "scripts" in
  let? setup := get_prop scripts "setup" in
  if negb (truthy setup) then invalid
  else if negb (isArray setup) then invalid
  else
    let? start := get_prop scripts "start" in
    if negb (truthy start) then invalid else Ok tt.

(** The body of the [try] block after parsing (lines 52 to 65). *)
Definition validate (config : value) : result value :=
  let? _ := check_required requiredProps config in
  let? _ := check_scripts config in
  Ok config.

Definition readConfig (w : World) (baseDir : string) : result value :=
  let configPath := path_join w baseDir "openlab.yaml" in
  if negb (existsSync w configPath)
  then Throw (Error ("Config file not found: " +:+ configPath))
  else
    let attempt :=
      let? configContent := readFileSync w configPath in
      let? config := parse w configContent in
      validate config in
    match attempt with
    | Throw (SyntaxError msg) =>
        Throw (Error ("Invalid JSON format in config file: " +:+ configPath
                      +:+ ". Error: " +:+ msg))
    | r => r
    end.

(** [k in envVars] for the object literal of [setEnvVars]: an ordinary
    object, so the properties of [Object.prototype] count as present. *)
Definition in_env (k : string) (envVars : gmap string value) : bool :=
  match envVars !! k with Some _ => true | None => false end
  || inherited_from_object k.

(** One iteration of the loop over [config.ports] (lines 86 to 88). *)
Definition add_port (envVars : gmap string value) (option : value)
  : result (gmap string value) :=
  let? envVar := get_prop option "envVar" in
  let? key := to_string envVar in
  if negb (in_env key envVars) then
    let? port := get_prop option "port" in
    let? text := call_toString port in
    Ok (<[key := VString text]> envVars)
  else Ok envVars.

(** One iteration of the loop over [config.additionalOptions] (lines 95 to
    97). *)
Definition add_option (envVars : gmap string value) (option : value)
  : result (gmap string value) :=
  let? envVar := get_prop option "envVar" in
  let? key := to_string envVar in
  if negb (in_env key envVars) then
    let? dflt := get_prop option "default" in
    Ok (<[key := dflt]> envVars)
  else Ok envVars.

Fixpoint fold_env (step : gmap string value → value → result (gmap string value))
    (options : list value) (envVars : gmap string value)
  : result (gmap string value) :=
  match options with
  | [] => Ok envVars
  | option :: rest =>
      let? envVars' := step envVars option in
      fold_env step rest envVars'
  end.

(** [if (list) { for (const option of list) ... }] *)
Definition add_all (step : gmap string value → value → result (gmap string value))
    (declared : value) (envVars : gmap string value)
  : result (gmap string value) :=
  if truthy declared then
    let? options := iterate declared in
    fold_env step options envVars
  else Ok envVars.

(** The object literal of lines 76 to 81: the three fixed keys first, then
    the spread of [process.env], whose entries replace same-named ones. *)
Definition initial_env (penv : gmap string string) (repo version directory : value)
  : gmap string value :=
  (VString <$> penv) ∪
  <["APP_REPO" := repo]> (<["APP_VERSION" := version]> (<["APP_DIRECTORY" := directory]> ∅)).

Definition setEnvVars (penv : gmap string string) (config : value)
  : result (gmap string value) :=
  let? repo := get_prop config "appRepository" in
  let? version := get_prop config "appVersion" in
  let? directory := get_prop config "appDirectory" in
  let envVars := initial_env penv repo version directory in
  let? ports := get_prop config "ports" in
  let? envVars := add_all add_port ports envVars in
  let? additionalOptions := get_prop config "additionalOptions" in
  add_all add_option additionalOptions envVars.

(** [config.python?.environment] *)
Definition python_environment (config : value) : result value :=
  let? python := get_prop config "python" in
  get_prop_opt python "environment".

Definition is_string (v : value) (s : string) : bool :=
  match v with VString s' => String.eqb s' s | _ => false end.

Definition getActivationCommand (config : value) : result string :=
  let? environment := python_environment config in
  if is_string environment "venv" then
    let? appDirectory := get_prop config "appDirectory" in
    let? dir := to_string appDirectory in
    Ok ("source " +:+ dir +:+ "/venv/bin/activate && ")
  else if is_string environment "conda" then
    let? appId := get_prop config "appId" in
    let? id := to_string appId in
    Ok ("conda activate " +:+ id +:+ " && ")
  else Ok "".

(** The options object of the [execSync] call of [runScript]. *)
Definition script_spawn (fullCommand : string) (envVars : gmap string value)
    (baseDir : string) : spawn :=
  {| command := fullCommand; shell := Some "/bin/bash";
     env := Some envVars; cwd := Some baseDir |}.

(** The options object [{ stdio: 'inherit' }] of the other [execSync] calls. *)
Definition plain_spawn (cmd : string) : spawn :=
  {| command := cmd; shell := None; env := None; cwd := None |}.

(** Line 116: [config.autoActivateEnvBeforeEachStep ?
    getActivationCommand(config) : ''] *)
Definition activationCommand (config : value) : result string :=
  let? autoActivate := get_prop config "autoActivateEnvBeforeEachStep" in
  if truthy autoActivate then getActivationCommand config else Ok "".

Definition runScript (w : World) (script config : value)
    (envVars : gmap string value) (baseDir : string) : M unit :=
  do activation <- lift (activationCommand config);
  do text <- lift (script_text script);
  (if endsWith text ".sh"
   then chmod w (path_join w baseDir text) "755"
   else ret tt) ;;
  exec w (script_spawn (activation +:+ text) envVars baseDir).

Definition initializeRepo (w : World) (config : value) : M unit :=
  do repo <- lift (let? v := get_prop config "appRepository" in to_string v);
  do dir <- lift (let? v := get_prop config "appDirectory" in to_string v);
  exec w (plain_spawn ("git clone " +:+ repo +:+ " " +:+ dquote +:+ dir +:+ dquote)) ;;
  do dir <- lift (let? v := get_prop config "appDirectory" in to_string v);
  do version <- lift (let? v := get_prop config "appVersion" in to_string v);
  exec w (plain_spawn ("cd " +:+ dquote +:+ dir +:+ dquote +:+ " && git checkout " +:+ version)).

Definition setupPythonEnvironment (w : World) (config : value) : M unit :=
  do environment <- lift (python_environment config);
  if is_string environment "venv" then
    do dir <- lift (let? v := get_prop config "appDirectory" in to_string v);
    exec w (plain_spawn ("python3 -m venv --system-site-packages "
                         +:+ dquote +:+ dir +:+ "/venv" +:+ dquote))
  else
    do environment <- lift (python_environment config);
    if is_string environment "conda" then
      do id <- lift (let? v := get_prop config "appId" in to_string v);
      exec w (plain_spawn ("conda create -n " +:+ id +:+ " python=3.8 -y"))
    else ret tt.

(** [process.argv[i]] is a string or [undefined]; [!x] holds of [undefined]
    and of the empty string. *)
Definition missing (arg : option string) : bool :=
  match arg with
  | None => true
  | Some s => String.eqb s ""
  end.

Definition includes (l : list string) (arg : option string) : bool :=
  match arg with
  | None => false
  | Some s => existsb (String.eqb s) l
  end.

Definition is_command (arg : option string) (name : string) : bool :=
  match arg with
  | None => false
  | Some s => String.eqb s name
  end.

(** The checks of the command line (lines 161 to 174); the result is the
    base directory. *)
Definition check_arguments (w : World) (command baseDir : option string)
  : result string :=
  if missing command || negb (includes ["install"; "start"] command) then
    Throw (Error ("Please provide a valid command: " +:+ dquote +:+ "install"
                  +:+ dquote +:+ " or " +:+ dquote +:+ "start" +:+ dquote))
  else if missing baseDir then
    Throw (Error "Please provide a directory as a command line argument.")
  else
    let baseDir := default "" baseDir in
    if negb (existsSync w baseDir) then
      Throw (Error ("Specified directory does not exist: " +:+ baseDir))
    else Ok baseDir.

(** The branch of [command === 'install'] (lines 181 to 192). *)
Definition install (w : World) (config : value) (envVars : gmap string value)
    (baseDir : string) : M unit :=
  do autoInitialize <- lift (get_prop config "autoInitialize");
  (if truthy autoInitialize
   then initializeRepo w config ;; setupPythonEnvironment w config
   else ret tt) ;;
  do scripts <- lift (get_prop config "scripts");
  do setup <- lift (get_prop scripts "setup");
  do setupScripts <- lift (iterate setup);
  for_of setupScripts (fun setupScript =>
    runScript w setupScript config envVars baseDir).

(** The branch of [command === 'start'] (lines 193 to 196). *)
Definition start (w : World) (config : value) (envVars : gmap string value)
    (baseDir : string) : M unit :=
  do scripts <- lift (get_prop config "scripts");
  do script <- lift (get_prop scripts "start");
  runScript w script config envVars baseDir.

(** The [try] block of [main] (lines 160 to 196). *)
Definition main_body (w : World) (command baseDir : option string) : M unit :=
  do baseDir <- lift (check_arguments w command baseDir);
  do config <- lift (readConfig w baseDir);
  do envVars <- lift (setEnvVars (process_env w) config);
  if is_command command "install" then install w config envVars baseDir
  else if is_command command "start" then start w config envVars baseDir
  else ret tt.

(** How the process ends: the handler of [main] reports the error and calls
    [process.exit(1)]; otherwise the process ends with status 0. *)
Record run : Type := Run {
  trace : list event;
  reported : option error;
  exit_code : Z
}.

Definition main (w : World) (command baseDir : option string) : run :=
  match main_body w command baseDir [] with
  | (tr, Ok _) => {| trace := tr; reported := None; exit_code := 0 |}
  | (tr, Throw e) => {| trace := tr; reported := Some e; exit_code := 1 |}
  end.

(** The child processes of a trace, in the order they were started. *)
Definition executed (tr : list event) : list spawn :=
  omap (fun e => match e with EvExec s => Some s | EvChmod _ _ => None end) tr.

(** ** Configurations that follow the [Config] interface

    The interface is erased at run time; [conforms] says that a parsed value
    has the declared shape.  The two flags may be left out (they are then
    [undefined], which is falsy); the [envVar] of a port, declared a number
    by the interface, may also be the name it stands for. *)

Definition is_str (v : value) : bool :=
  match v with VString _ => true | _ => false end.
(** A number: an integer in the safe range, or another double. *)
Definition is_num (v : value) : bool :=
  match v with
  | VNumber n => safe_integer n
  | VDouble _ => true
  | _ => false
  end.
Definition is_bool (v : value) : bool :=
  match v with VBool _ => true | _ => false end.

Definition all_of (p : value → bool) (v : value) : bool :=
  match v with VArray l => forallb p l | _ => false end.

Definition has (o : list (string * value)) (k : string) (p : value → bool) : bool :=
  match own_property k o with Some v => p v | None => false end.

Definition may_have (o : list (string * value)) (k : string) (p : value → bool) : bool :=
  match own_property k o with Some v => p v | None => true end.

Definition record (fields : list (string * value) → bool) (v : value) : bool :=
  match v with VObject o => fields o | _ => false end.

Definition conforms_scripts : value → bool :=
  record (fun o => has o "setup" (all_of is_str) && has o "start" is_str).

Definition conforms_python : value → bool :=
  record (fun o => has o "environment" (fun v =>
    is_string v "venv" || is_string v "conda" || is_string v "none")).

Definition conforms_port : value → bool :=
  record (fun o => has o "type" is_str
                   && has o "envVar" (fun v => is_str v || is_num v)
                   && has o "port" is_num).

Definition conforms_option : value → bool :=
  record (fun o => has o "envVar" is_str && has o "default" is_str
                   && has o "description" is_str).

Definition conforms : value → bool :=
  record (fun o =>
    has o "appId" is_str && has o "source" is_str
    && has o "scripts" conforms_scripts
    && may_have o "autoInitialize" is_bool
    && may_have o "autoActivateEnvBeforeEachStep" is_bool
    && has o "appRepository" is_str && has o "appVersion" is_str
    && has o "appDirectory" is_str
    && may_have o "python" conforms_python
    && may_have o "ports" (all_of conforms_port)
    && may_have o "additionalOptions" (all_of conforms_option)).

(** ** Sample configurations and worlds *)

Definition demo_scripts : value :=
  VObject [ ("setup", VArray [VString "a.sh"; VString "b.sh"]);
            ("start", VString "run.sh") ].

Definition demo_config (autoInitialize : bool) : value :=
  VObject
    [ ("appId", VString "demo");
      ("source", VString "github");
      ("scripts", demo_scripts);
      ("autoInitialize", VBool autoInitialize);
      ("autoActivateEnvBeforeEachStep", VBool true);
      ("appRepository", VString "https://example.org/demo.git");
      ("appVersion", VString "v1.2");
      ("appDirectory", VString "app");
      ("python", VObject [("environment", VString "venv")]);
      ("ports", VArray [VObject [ ("type", VString "http");
                                  ("envVar", VString "PORT");
                                  ("port", VNumber 8080) ]]);
      ("additionalOptions",
       VArray [VObject [ ("envVar", VString "MODE");
                         ("default", VString "fast");
                         ("description", VString "run mode") ]]) ].

(** A world whose [openlab.yaml] parses to [config]; [chmod_ok] and
    [exit_ok] decide, by path and by command line, which permission changes
    and which child processes succeed. *)
Definition demo_world (penv : gmap string string) (config : value)
    (chmod_ok exit_ok : string → bool) : World :=
  {| process_env := penv;
     path_join := fun dir file => dir +:+ "/" +:+ file;
     existsSync := fun _ => true;
     readFileSync := fun _ => Ok "(the text of openlab.yaml)";
     parse := fun _ => Ok config;
     chmodSync := fun _ path _ => chmod_ok path;
     execSync := fun _ s => exit_ok (command s) |}.

Definition always : string → bool := fun _ => true.
Definition never : string → bool := fun _ => false.
Definition except (name : string) : string → bool :=
  fun s => negb (endsWith s name).

Definition demo_penv : gmap string string := {[ "HOME" := "/root" ]}.

(** The mapping [setEnvVars] builds from [demo_penv] and [demo_config]. *)
Definition demo_env : gmap string value :=
  <["MODE" := VString "fast"]>
    (<["PORT" := VString "8080"]>
       (initial_env demo_penv (VString "https://example.org/demo.git")
          (VString "v1.2") (VString "app"))).

(** The smallest objects on which the activation command can be read. *)
Definition python_config (kind : string) : value :=
  VObject [ ("appId", VString "demo"); ("appDirectory", VString "app");
            ("python", VObject [("environment", VString kind)]) ].


(** [appVersion] and [appDirectory] are left out. *)
Definition incomplete_config : value :=
  VObject
    [ ("appId", VString "demo");
      ("source", VString "github");
      ("scripts", demo_scripts);
      ("appRepository", VString "https://example.org/demo.git") ].

(** A port whose variable is named like a method of [Object.prototype]. *)
Definition constructor_config : value :=
  VObject
    [ ("appId", VString "demo");
      ("source", VString "github");
      ("scripts", demo_scripts);
      ("appRepository", VString "https://example.org/demo.git");
      ("appVersion", VString "v1.2");
      ("appDirectory", VString "app");
      ("ports", VArray [VObject [ ("type", VString "http");
                                  ("envVar", VString "constructor");
                                  ("port", VNumber 8080) ]]) ].

(** ** Notions used in the statements and proofs *)

(** The test [!(prop in config)] of the Config Loader holds. *)
Definition lacks (config : value) (prop : string) : bool :=
  match has_property prop config with
  | Ok false => true
  | _ => false
  end.

(** A loop body that only ever adds keys that are not yet defined. *)
Definition adds_new (step : gmap string value → value → result (gmap string value)) : Prop :=
  ∀ envVars option envVars' k v,
    step envVars option = Ok envVars' → envVars !! k = Some v → envVars' !! k = Some v.

(** Every event a computation appends to the trace satisfies [P]. *)
Definition emits {A} (P : event → Prop) (m : M A) : Prop :=
  ∀ tr, ∃ new, (m tr).1 = tr ++ new ∧ Forall P new.

(** The two ways the program starts a child process: the Script Runner,
    and the plain [execSync] calls reached only through [install] with a
    truthy [autoInitialize]. *)
Definition by_design (command : option string) (config : value)
    (envVars : gmap string value) (dir : string) (e : event) : Prop :=
  match e with
  | EvChmod _ _ => True
  | EvExec s =>
      (∃ cmd, s = script_spawn cmd envVars dir)
      ∨ ((∃ cmd, s = plain_spawn cmd)
         ∧ command = Some "install"
         ∧ ∃ autoInitialize,
             get_prop config "autoInitialize" = Ok autoInitialize
             ∧ truthy autoInitialize = true)
  end.

(** Every child process of the trace exited with status 0. *)
Definition clean (w : World) (tr : list event) : Prop :=
  ∀ before s after, tr = before ++ EvExec s :: after → execSync w before s = true.

(** A child process that failed is the last event of the trace. *)
Definition failure_is_last (w : World) (tr : list event) : Prop :=
  ∀ before s after,
    tr = before ++ EvExec s :: after → execSync w before s = false → after = [].

(** Started after successful children only, a computation either returns
    with all its children successful, or throws with at most one failed
    child, the last thing it did. *)
Definition halts_on_failure {A} (w : World) (m : M A) : Prop :=
  ∀ tr, clean w tr →
    match m tr with
    | (tr', Ok _) => clean w tr'
    | (tr', Throw _) => failure_is_last w tr'
    end.

(** ** Notions used by the further properties *)

(** Whether an event of the trace went well, given what came before it. *)
Definition succeeded (w : World) (before : list event) (e : event) : bool :=
  match e with
  | EvChmod path mode => chmodSync w before path mode
  | EvExec s => execSync w before s
  end.

(** Every permission change and every child process of the trace went well. *)
Definition all_succeeded (w : World) (tr : list event) : Prop :=
  ∀ before e after, tr = before ++ e :: after → succeeded w before e = true.

(** An event that went wrong is the last one of the trace. *)
Definition only_last_failed (w : World) (tr : list event) : Prop :=
  ∀ before e after,
    tr = before ++ e :: after → succeeded w before e = false → after = [].

Definition stops_at_failure {A} (w : World) (m : M A) : Prop :=
  ∀ tr, all_succeeded w tr →
    match m tr with
    | (tr', Ok _) => all_succeeded w tr'
    | (tr', Throw _) => only_last_failed w tr'
    end.

(** The name [k] is declared by an entry of a [ports] or [additionalOptions]
    value: the key its [envVar] converts to. *)
Definition declared_in (declared : value) (k : string) : Prop :=
  ∃ options option envVar,
    iterate declared = Ok options
    ∧ option ∈ options
    ∧ get_prop option "envVar" = Ok envVar
    ∧ to_string envVar = Ok k.

(** The two commands of the Repository Initializer, for string fields. *)
Definition clone_spawn (repo dir : string) : spawn :=
  plain_spawn ("git clone " +:+ repo +:+ " " +:+ dquote +:+ dir +:+ dquote).

Definition checkout_spawn (dir version : string) : spawn :=
  plain_spawn ("cd " +:+ dquote +:+ dir +:+ dquote +:+ " && git checkout " +:+ version).

(** The command of the Python Environment Provisioner, if the kind has one. *)
Definition provisioning (kind : value) (dir id : string) : list spawn :=
  if is_string kind "venv" then
    [plain_spawn ("python3 -m venv --system-site-packages "
                  +:+ dquote +:+ dir +:+ "/venv" +:+ dquote)]
  else if is_string kind "conda" then
    [plain_spawn ("conda create -n " +:+ id +:+ " python=3.8 -y")]
  else [].


(** A configuration whose setup list holds a number between two scripts. *)
Definition mixed_setup_config : value :=
  VObject
    [ ("appId", VString "demo");
      ("source", VString "github");
      ("scripts", VObject [ ("setup", VArray [VString "a.sh"; VNumber 42; VString "b.sh"]);
                            ("start", VString "run.sh") ]);
      ("appRepository", VString "https://example.org/demo.git");
      ("appVersion", VString "v1.2");
      ("appDirectory", VString "app") ].

(** [ports] written as a mapping instead of a list. *)
Definition ports_mapping_config : value :=
  VObject
    [ ("appId", VString "demo");
      ("source", VString "github");
      ("scripts", demo_scripts);
      ("appRepository", VString "https://example.org/demo.git");
      ("appVersion", VString "v1.2");
      ("appDirectory", VString "app");
      ("ports", VObject [("PORT", VNumber 8080)]) ].

(** A port and an additional option that declare the same variable. *)
Definition clash_fields : list (string * value) :=
    [ ("appId", VString "demo");
      ("source", VString "github");
      ("scripts", demo_scripts);
      ("appRepository", VString "https://example.org/demo.git");
      ("appVersion", VString "v1.2");
      ("appDirectory", VString "app");
      ("ports", VArray [VObject [ ("type", VString "http");
                                  ("envVar", VString "PORT");
                                  ("port", VNumber 8080) ]]);
      ("additionalOptions",
       VArray [VObject [ ("envVar", VString "PORT");
                         ("default", VString "1");
                         ("description", VString "clashes with the port") ]]) ].

Definition clash_config : value := VObject clash_fields.

(** Additional options only; the default of [WORKERS] is a number. *)
Definition options_fields : list (string * value) :=
    [ ("appId", VString "demo");
      ("source", VString "github");
      ("scripts", demo_scripts);
      ("appRepository", VString "https://example.org/demo.git");
      ("appVersion", VString "v1.2");
      ("appDirectory", VString "app");
      ("additionalOptions",
       VArray [VObject [ ("envVar", VString "WORKERS");
                         ("default", VNumber 4);
                         ("description", VString "worker count") ]]) ].

Definition options_config : value := VObject options_fields.

(** A world like [demo_world] in which [openlab.yaml] does not exist, or
    does not parse. *)
Definition world_without_config : World :=
  {| process_env := demo_penv;
     path_join := fun dir file => dir +:+ "/" +:+ file;
     existsSync := fun path => negb (endsWith path "openlab.yaml");
     readFileSync := fun _ => Throw SystemError;
     parse := fun _ => Throw (SyntaxError "unreachable");
     chmodSync := fun _ _ _ => true;
     execSync := fun _ _ => true |}.

Definition world_with_bad_yaml : World :=
  {| process_env := demo_penv;
     path_join := fun dir file => dir +:+ "/" +:+ file;
     existsSync := fun _ => true;
     readFileSync := fun _ => Ok "appId: [";
     parse := fun _ => Throw (SyntaxError "unexpected end of the stream");
     chmodSync := fun _ _ _ => true;
     execSync := fun _ _ => true |}.

(** * Properties *)

(** ** The Config Loader *)

Section ConfigLoader.

Lemma rbind_ok_inv {A B} (r : result A) (k : A → result B) (b : B) :
  rbind r k = Ok b → ∃ a, r = Ok a ∧ k a = Ok b.
Proof. destruct r as [a|e]; simpl; [eauto | discriminate]. Qed.

Lemma owns_true k o : owns k o = true ↔ is_Some (own_property k o).
Proof.
  unfold owns. destruct (own_property k o); split; intros H; eauto.
  - discriminate.
  - by destruct H.
Qed.

Lemma owns_false k o : owns k o = false ↔ own_property k o = None.
Proof. unfold owns. destruct (own_property k o); split; congruence. Qed.

Lemma required_not_inherited p :
  p ∈ requiredProps → inherited_from_object p = false.
Proof.
  unfold requiredProps. rewrite !elem_of_cons, elem_of_nil.
  intros H. decompose [or] H; subst; try contradiction; reflexivity.
Qed.

(** A required property is lacking in an object exactly when the object
    does not own it. *)
Lemma lacks_object o p :
  p ∈ requiredProps → lacks (VObject o) p = true ↔ own_property p o = None.
Proof.
  intros Hp. unfold lacks. simpl. rewrite (required_not_inherited p Hp), orb_false_r.
  rewrite <-owns_false. by destruct (owns p o).
Qed.





(** Only an object passes validation, and it is returned as it is. *)
Lemma validate_ok_inv config c :
  validate config = Ok c → c = config ∧ ∃ o, config = VObject o.
Proof.
  unfold validate. intros H.
  apply rbind_ok_inv in H as ([] & Hreq & H).
  apply rbind_ok_inv in H as ([] & _ & H).
  split; [congruence|].
  destruct config; try discriminate Hreq; eauto.
Qed.

Lemma readConfig_ok_inv w dir config :
  readConfig w dir = Ok config →
  validate config = Ok config ∧ ∃ o, config = VObject o.
Proof.
  unfold readConfig. destruct (negb _); [discriminate|].
  destruct (readFileSync w _) as [content|e]; simpl.
  2:{ destruct e; discriminate. }
  destruct (parse w content) as [c|e]; simpl.
  2:{ destruct e; discriminate. }
  destruct (validate c) as [c'|e] eqn:Hv.
  2:{ destruct e; discriminate. }
  intros [= <-]. destruct (validate_ok_inv _ _ Hv) as [-> ?]. done.
Qed.


End ConfigLoader.

Section Validation.

Lemma bind_lift_throw {A B} (r : result A) (k : A → M B) e tr :
  r = Throw e → bind (lift r) k tr = (tr, Throw e).
Proof. intros ->. reflexivity. Qed.

Lemma bind_lift_ok {A B} (r : result A) (k : A → M B) a tr :
  r = Ok a → bind (lift r) k tr = k a tr.
Proof. intros ->. reflexivity. Qed.

Lemma main_throw_early w command baseDir e :
  check_arguments w command baseDir = Throw e →
  main w command baseDir = {| trace := []; reported := Some e; exit_code := 1 |}.
Proof.
  intros H. unfold main, main_body. by rewrite (bind_lift_throw _ _ e).
Qed.

Lemma main_throw_config w command baseDir dir e :
  check_arguments w command baseDir = Ok dir →
  readConfig w dir = Throw e →
  main w command baseDir = {| trace := []; reported := Some e; exit_code := 1 |}.
Proof.
  intros Hargs H. unfold main, main_body.
  rewrite (bind_lift_ok _ _ dir) by done. by rewrite (bind_lift_throw _ _ e).
Qed.




End Validation.

Section PresenceOnly.

Lemma check_required_all_owned o props :
  (∀ p, p ∈ props → is_Some (own_property p o)) →
  check_required props (VObject o) = Ok tt.
Proof.
  induction props as [|p props IH]; intros Hall; simpl; [done|].
  assert (Hp : owns p o = true).
  { apply owns_true, Hall, elem_of_cons. by left. }
  rewrite Hp. simpl. apply IH. intros q Hq. apply Hall, elem_of_cons. by right.
Qed.



End PresenceOnly.

(** ** The Environment Builder *)

Section EnvironmentBuilder.

Implicit Types (envVars : gmap string value) (penv : gmap string string).

Lemma in_env_defined k v envVars : envVars !! k = Some v → in_env k envVars = true.
Proof. unfold in_env. by intros ->. Qed.

Lemma in_env_false k envVars :
  in_env k envVars = false ↔ envVars !! k = None ∧ inherited_from_object k = false.
Proof.
  unfold in_env. destruct (envVars !! k); simpl; split; try done.
  - by intros [? _].
  - by intros [_ ?].
Qed.

Lemma add_port_adds_new : adds_new add_port.
Proof.
  intros envVars option envVars' k v H Hk. unfold add_port in H.
  apply rbind_ok_inv in H as (envVar & _ & H).
  apply rbind_ok_inv in H as (key & _ & H).
  destruct (in_env key envVars) eqn:Hin; simpl in H.
  - by injection H as <-.
  - apply rbind_ok_inv in H as (port & _ & H).
    apply rbind_ok_inv in H as (text & _ & H).
    injection H as <-. rewrite lookup_insert_ne; [done|].
    intros ->. by rewrite (in_env_defined _ _ _ Hk) in Hin.
Qed.

Lemma add_option_adds_new : adds_new add_option.
Proof.
  intros envVars option envVars' k v H Hk. unfold add_option in H.
  apply rbind_ok_inv in H as (envVar & _ & H).
  apply rbind_ok_inv in H as (key & _ & H).
  destruct (in_env key envVars) eqn:Hin; simpl in H.
  - by injection H as <-.
  - apply rbind_ok_inv in H as (dflt & _ & H).
    injection H as <-. rewrite lookup_insert_ne; [done|].
    intros ->. by rewrite (in_env_defined _ _ _ Hk) in Hin.
Qed.

Lemma fold_env_adds_new step options :
  adds_new step →
  ∀ envVars envVars' k v,
    fold_env step options envVars = Ok envVars' →
    envVars !! k = Some v → envVars' !! k = Some v.
Proof.
  intros Hstep. induction options as [|option rest IH]; simpl; intros envVars envVars' k v H Hk.
  - by injection H as <-.
  - apply rbind_ok_inv in H as (mid & Hmid & H).
    eapply IH; [done|]. by eapply Hstep.
Qed.

Lemma add_all_adds_new step declared envVars envVars' k v :
  adds_new step →
  add_all step declared envVars = Ok envVars' →
  envVars !! k = Some v → envVars' !! k = Some v.
Proof.
  intros Hstep H Hk. unfold add_all in H. destruct (truthy declared).
  - apply rbind_ok_inv in H as (options & _ & H).
    by eapply fold_env_adds_new.
  - by injection H as <-.
Qed.

(** The three fixed keys of the object literal: the spread of [process.env]
    comes last, so an inherited variable of the same name replaces the
    value taken from the configuration. *)
Lemma initial_env_lookup penv repo version directory k :
  initial_env penv repo version directory !! k =
    match penv !! k with
    | Some s => Some (VString s)
    | None =>
        if decide (k = "APP_REPO") then Some repo
        else if decide (k = "APP_VERSION") then Some version
        else if decide (k = "APP_DIRECTORY") then Some directory
        else None
    end.
Proof.
  unfold initial_env. rewrite lookup_union, lookup_fmap.
  destruct (penv !! k) as [s|]; simpl.
  - by destruct (_ !! k).
  - rewrite !lookup_insert, lookup_empty.
    repeat case_decide; try done; congruence.
Qed.

Lemma setEnvVars_inv penv config envVars :
  setEnvVars penv config = Ok envVars →
  ∃ repo version directory,
    get_prop config "appRepository" = Ok repo
    ∧ get_prop config "appVersion" = Ok version
    ∧ get_prop config "appDirectory" = Ok directory
    ∧ ∀ k v, initial_env penv repo version directory !! k = Some v →
             envVars !! k = Some v.
Proof.
  unfold setEnvVars. intros H.
  apply rbind_ok_inv in H as (repo & Hrepo & H).
  apply rbind_ok_inv in H as (version & Hversion & H).
  apply rbind_ok_inv in H as (directory & Hdirectory & H).
  apply rbind_ok_inv in H as (ports & _ & H).
  apply rbind_ok_inv in H as (mid & Hports & H).
  apply rbind_ok_inv in H as (options & _ & H).
  exists repo, version, directory. repeat split; try done.
  intros k v Hk.
  eapply add_all_adds_new; [apply add_option_adds_new|done|].
  eapply add_all_adds_new; [apply add_port_adds_new|done|done].
Qed.

(** A variable of the inherited environment keeps its value. *)
Lemma setEnvVars_keeps_inherited penv config envVars k s :
  setEnvVars penv config = Ok envVars →
  penv !! k = Some s → envVars !! k = Some (VString s).
Proof.
  intros H Hk. destruct (setEnvVars_inv _ _ _ H) as (r & v & d & _ & _ & _ & Hkeep).
  apply Hkeep. rewrite initial_env_lookup. by rewrite Hk.
Qed.

End EnvironmentBuilder.

(** ** Conforming configurations never make the program throw a TypeError *)

Section Conforming.

Lemma has_inv o k p :
  has o k p = true → ∃ v, own_property k o = Some v ∧ p v = true.
Proof. unfold has. destruct (own_property k o); [eauto | discriminate]. Qed.

Lemma may_have_inv o k p :
  may_have o k p = true →
  own_property k o = None ∨ ∃ v, own_property k o = Some v ∧ p v = true.
Proof. unfold may_have. destruct (own_property k o); eauto. Qed.

Lemma record_inv fields v :
  record fields v = true → ∃ o, v = VObject o ∧ fields o = true.
Proof. destruct v; simpl; try discriminate. eauto. Qed.

Lemma is_str_inv v : is_str v = true → ∃ s, v = VString s.
Proof. destruct v; simpl; try discriminate. eauto. Qed.

Lemma is_num_inv v :
  is_num v = true →
  (∃ n, v = VNumber n ∧ safe_integer n = true) ∨ (∃ text, v = VDouble text).
Proof. destruct v; simpl; try discriminate; eauto. Qed.

Lemma is_num_text v :
  is_num v = true → ∃ text, to_string v = Ok text ∧ call_toString v = Ok text.
Proof. destruct v; simpl; try discriminate; eauto. Qed.

Lemma is_bool_inv v : is_bool v = true → ∃ b, v = VBool b.
Proof. destruct v; simpl; try discriminate. eauto. Qed.

Lemma all_of_inv p v : all_of p v = true → ∃ l, v = VArray l ∧ forallb p l = true.
Proof. destruct v; simpl; try discriminate. eauto. Qed.

Lemma all_strings l : forallb is_str l = true → ∃ texts, l = VString <$> texts.
Proof.
  induction l as [|v l IH]; simpl; intros H.
  - by exists [].
  - apply andb_prop in H as [Hv Hl].
    destruct (is_str_inv _ Hv) as [s ->], (IH Hl) as [texts ->].
    by exists (s :: texts).
Qed.

Lemma is_string_eq v s : is_string v s = true ↔ v = VString s.
Proof.
  destruct v; simpl; split; try done.
  - intros H. apply String.eqb_eq in H. by subst.
  - intros [= ->]. apply String.eqb_refl.
Qed.

Lemma add_port_total envVars option :
  conforms_port option = true → ∃ envVars', add_port envVars option = Ok envVars'.
Proof.
  intros H. apply record_inv in H as (o & -> & H).
  apply andb_prop in H as [H Hport]. apply andb_prop in H as [_ HenvVar].
  apply has_inv in HenvVar as (envVar & HenvVar & Hshape).
  apply has_inv in Hport as (port & Hport & Hnum).
  apply is_num_text in Hnum as (text & _ & Htext).
  unfold add_port. simpl. rewrite HenvVar, Hport. simpl.
  assert (∃ key, to_string envVar = Ok key) as [key ->].
  { apply orb_prop in Hshape as [Hs|Hn].
    - apply is_str_inv in Hs as [s ->]. by eexists.
    - apply is_num_text in Hn as (key & -> & _). by eexists. }
  simpl. destruct (in_env key envVars); simpl; [eauto|].
  rewrite Htext. simpl. eauto.
Qed.

Lemma add_option_total envVars option :
  conforms_option option = true → ∃ envVars', add_option envVars option = Ok envVars'.
Proof.
  intros H. apply record_inv in H as (o & -> & H).
  apply andb_prop in H as [H _]. apply andb_prop in H as [HenvVar Hdefault].
  apply has_inv in HenvVar as (envVar & HenvVar & Hs).
  apply is_str_inv in Hs as [key ->].
  unfold add_option. simpl. rewrite HenvVar. simpl.
  destruct (in_env key envVars); simpl; eauto.
Qed.

Lemma fold_env_total step (shape : value → bool) options :
  (∀ envVars option, shape option = true → ∃ envVars', step envVars option = Ok envVars') →
  forallb shape options = true →
  ∀ envVars, ∃ envVars', fold_env step options envVars = Ok envVars'.
Proof.
  intros Hstep. induction options as [|option rest IH]; simpl; intros H envVars.
  - eauto.
  - apply andb_prop in H as [Hoption Hrest].
    destruct (Hstep envVars option Hoption) as [mid ->]. simpl. by apply IH.
Qed.

Lemma add_all_total step (shape : value → bool) o k envVars :
  (∀ envVars option, shape option = true → ∃ envVars', step envVars option = Ok envVars') →
  may_have o k (all_of shape) = true →
  ∃ envVars', add_all step (default VUndefined (own_property k o)) envVars = Ok envVars'.
Proof.
  intros Hstep H. apply may_have_inv in H as [->|(v & -> & H)]; simpl.
  - unfold add_all. simpl. eauto.
  - apply all_of_inv in H as (l & -> & Hl). unfold add_all. simpl.
    by eapply fold_env_total.
Qed.

Lemma conforms_setEnvVars penv config :
  conforms config = true → ∃ envVars, setEnvVars penv config = Ok envVars.
Proof.
  intros H. apply record_inv in H as (o & -> & H).
  apply andb_prop in H as [H Hoptions]. apply andb_prop in H as [H Hports].
  unfold setEnvVars. simpl.
  edestruct (add_all_total add_port conforms_port o "ports") as [mid ->];
    [apply add_port_total | done |].
  simpl. by eapply add_all_total; [apply add_option_total|].
Qed.

End Conforming.

Section FixedKeys.

(** One declared port: nothing changes when the name counts as present for
    the [in] operator, otherwise the name is bound to the text
    [port.toString()] gives. *)
Lemma add_port_spec (envVars : gmap string value) option name port text :
  get_prop option "envVar" = Ok (VString name) →
  get_prop option "port" = Ok port →
  call_toString port = Ok text →
  add_port envVars option
  = Ok (if in_env name envVars then envVars
        else <[name := VString text]> envVars).
Proof.
  intros HenvVar Hport Htext. unfold add_port. rewrite HenvVar. simpl.
  destruct (in_env name envVars); simpl; [done|].
  rewrite Hport. simpl. by rewrite Htext.
Qed.

(** One declared additional option, likewise with its default. *)
Lemma add_option_spec (envVars : gmap string value) option name dflt :
  get_prop option "envVar" = Ok (VString name) →
  get_prop option "default" = Ok dflt →
  add_option envVars option
  = Ok (if in_env name envVars then envVars else <[name := dflt]> envVars).
Proof.
  intros HenvVar Hdefault. unfold add_option. rewrite HenvVar. simpl.
  destruct (in_env name envVars); simpl; [done|]. by rewrite Hdefault.
Qed.

(** The example of the specification: [ports: [{envVar: "PORT", port:
    8080}]] and no inherited [PORT] give [PORT="8080"]; the declared option
    gets its default. *)
Example port_8080 :
  ∃ envVars, setEnvVars demo_penv (demo_config false) = Ok envVars
             ∧ envVars !! "PORT" = Some (VString "8080")
             ∧ envVars !! "MODE" = Some (VString "fast").
Proof. eexists. split; [vm_compute; reflexivity|]. split; reflexivity. Qed.

(** An inherited [PORT] is not overwritten. *)
Example port_inherited :
  ∃ envVars, setEnvVars {[ "PORT" := "9999" ]} (demo_config false) = Ok envVars
             ∧ envVars !! "PORT" = Some (VString "9999").
Proof.
  destruct (conforms_setEnvVars {[ "PORT" := "9999" ]} (demo_config false) eq_refl)
    as [envVars H].
  exists envVars. split; [done|]. by eapply setEnvVars_keeps_inherited.
Qed.

(** C1, as stated, fails: with [APP_REPO] defined in the inherited
    environment the built mapping holds the inherited value, not the
    [appRepository] of the configuration. *)
Lemma inherited_APP_REPO_wins :
  ∃ envVars,
    setEnvVars {[ "APP_REPO" := "file:///srv/mirror.git" ]} (demo_config false) = Ok envVars
    ∧ get_prop (demo_config false) "appRepository"
      = Ok (VString "https://example.org/demo.git")
    ∧ envVars !! "APP_REPO" = Some (VString "file:///srv/mirror.git")
    ∧ envVars !! "APP_REPO" ≠ Some (VString "https://example.org/demo.git").
Proof.
  destruct (conforms_setEnvVars {[ "APP_REPO" := "file:///srv/mirror.git" ]}
              (demo_config false) eq_refl) as [envVars H].
  assert (Hrepo : envVars !! "APP_REPO" = Some (VString "file:///srv/mirror.git")).
  { by eapply setEnvVars_keeps_inherited. }
  exists envVars. repeat split; try done. rewrite Hrepo. discriminate.
Qed.

(** C1, amended. In the mapping built by [setEnvVars] each of [APP_REPO],
    [APP_VERSION] and [APP_DIRECTORY] is bound to the inherited variable of
    that name when the process environment has one, and to the
    [appRepository], [appVersion], [appDirectory] of the configuration
    otherwise; declared ports and options never change these three.  The
    mapping is built for every configuration that conforms to the
    interface. *)
Theorem setEnvVars_fixed_keys (penv : gmap string string) (config : value) :
  (∀ envVars,
     setEnvVars penv config = Ok envVars →
     ∃ repo version directory,
       get_prop config "appRepository" = Ok repo
       ∧ get_prop config "appVersion" = Ok version
       ∧ get_prop config "appDirectory" = Ok directory
       ∧ envVars !! "APP_REPO" = Some (from_option VString repo (penv !! "APP_REPO"))
       ∧ envVars !! "APP_VERSION"
         = Some (from_option VString version (penv !! "APP_VERSION"))
       ∧ envVars !! "APP_DIRECTORY"
         = Some (from_option VString directory (penv !! "APP_DIRECTORY")))
  ∧ (conforms config = true → ∃ envVars, setEnvVars penv config = Ok envVars).
Proof.
  split; [|apply conforms_setEnvVars].
  intros envVars H.
  destruct (setEnvVars_inv _ _ _ H) as (repo & version & directory & ? & ? & ? & Hkeep).
  exists repo, version, directory. repeat split; try done.
  - apply Hkeep. rewrite initial_env_lookup. by destruct (penv !! "APP_REPO").
  - apply Hkeep. rewrite initial_env_lookup. by destruct (penv !! "APP_VERSION").
  - apply Hkeep. rewrite initial_env_lookup. by destruct (penv !! "APP_DIRECTORY").
Qed.

(** Without inherited variables of these names the three keys carry the
    values of the configuration. *)
Lemma setEnvVars_fixed_keys_witness :
  ∃ envVars,
    setEnvVars demo_penv (demo_config false) = Ok envVars
    ∧ envVars !! "APP_REPO" = Some (VString "https://example.org/demo.git")
    ∧ envVars !! "APP_VERSION" = Some (VString "v1.2")
    ∧ envVars !! "APP_DIRECTORY" = Some (VString "app").
Proof.
  destruct (setEnvVars_fixed_keys demo_penv (demo_config false)) as [Hkeys Htotal].
  destruct (Htotal eq_refl) as [envVars H].
  exists envVars. split; [exact H|].
  destruct (Hkeys envVars H) as (repo & version & directory & Hr & Hv & Hd & ? & ? & ?).
  injection Hr as <-. injection Hv as <-. injection Hd as <-.
  repeat split; assumption.
Defined.

(** X8. What holds of a declared port in general: the first declared port,
    when its port number is a safe integer, is bound to the decimal numeral
    of that number, provided its name is neither inherited from the process
    environment, nor one of the three fixed keys, nor the name of a property
    of [Object.prototype]. *)
Lemma first_declared_port_is_set penv o fields rest name n envVars :
  own_property "ports" o = Some (VArray (VObject fields :: rest)) →
  own_property "envVar" fields = Some (VString name) →
  own_property "port" fields = Some (VNumber n) →
  safe_integer n = true →
  penv !! name = None →
  name ∉ ["APP_REPO"; "APP_VERSION"; "APP_DIRECTORY"] →
  inherited_from_object name = false →
  setEnvVars penv (VObject o) = Ok envVars →
  envVars !! name = Some (VString (pretty n)).
Proof.
  intros Hports HenvVar Hport _ Hpenv Hfixed Hinherited H.
  unfold setEnvVars in H. simpl in H. rewrite Hports in H. simpl in H.
  apply rbind_ok_inv in H as (mid & Hmid & H).
  unfold add_all in Hmid. simpl in Hmid.
  apply rbind_ok_inv in Hmid as (first & Hfirst & Hmid).
  eapply add_all_adds_new; [apply add_option_adds_new | exact H |].
  eapply fold_env_adds_new; [apply add_port_adds_new | exact Hmid |].
  rewrite (add_port_spec _ (VObject fields) name (VNumber n) (pretty n)) in Hfirst;
    [|simpl; by rewrite ?HenvVar, ?Hport..].
  assert (Hnew : in_env name
                   (initial_env penv (default VUndefined (own_property "appRepository" o))
                      (default VUndefined (own_property "appVersion" o))
                      (default VUndefined (own_property "appDirectory" o))) = false).
  { apply in_env_false. split; [|done]. rewrite initial_env_lookup, Hpenv.
    rewrite !not_elem_of_cons in Hfixed. destruct Hfixed as (? & ? & ? & _).
    repeat case_decide; done. }
  rewrite Hnew in Hfirst. injection Hfirst as <-. apply lookup_insert_eq.
Qed.

(** C3 at the failing input: a port declares the variable [constructor],
    the inherited environment is empty, and the built mapping has no entry
    of that name, because ["constructor" in envVars] is true of every
    object literal. *)
Lemma declared_port_named_constructor_is_not_set :
  (∅ : gmap string string) !! "constructor" = None
  ∧ ∃ envVars,
      setEnvVars ∅ constructor_config = Ok envVars
      ∧ envVars !! "constructor" = None
      ∧ envVars !! "constructor" ≠ Some (VString "8080").
Proof.
  split; [reflexivity|]. eexists. split; [vm_compute; reflexivity|].
  split; [reflexivity | discriminate].
Qed.

End FixedKeys.

(** ** The activation command *)

Section Activation.

(** C8. [getActivationCommand] returns, for the environment kind [venv],
    the shell [source] of [<appDirectory>/venv/bin/activate]; for [conda],
    [conda activate <appId>] (each followed by [&&] so that the script can
    be appended); and the empty prefix for [none] and for a configuration
    without a [python] section. *)
Theorem getActivationCommand_cases (config : value) :
  (∀ appDirectory dir,
     python_environment config = Ok (VString "venv") →
     get_prop config "appDirectory" = Ok appDirectory →
     to_string appDirectory = Ok dir →
     getActivationCommand config = Ok ("source " +:+ dir +:+ "/venv/bin/activate && "))
  ∧ (∀ appId id,
       python_environment config = Ok (VString "conda") →
       get_prop config "appId" = Ok appId →
       to_string appId = Ok id →
       getActivationCommand config = Ok ("conda activate " +:+ id +:+ " && "))
  ∧ (python_environment config = Ok (VString "none") →
     getActivationCommand config = Ok "")
  ∧ (∀ o, config = VObject o → own_property "python" o = None →
          getActivationCommand config = Ok "").
Proof.
  unfold getActivationCommand. repeat split.
  - intros appDirectory dir -> -> Hdir. simpl. by rewrite Hdir.
  - intros appId id -> -> Hid. simpl. by rewrite Hid.
  - by intros ->.
  - intros o -> Hnone. unfold python_environment. simpl. by rewrite Hnone.
Qed.

Lemma getActivationCommand_cases_witness :
  getActivationCommand (demo_config false) = Ok "source app/venv/bin/activate && "
  ∧ getActivationCommand (python_config "conda") = Ok "conda activate demo && "
  ∧ getActivationCommand (python_config "none") = Ok ""
  ∧ getActivationCommand incomplete_config = Ok "".
Proof.
  split; [|split; [|split]].
  - exact (proj1 (getActivationCommand_cases (demo_config false))
             (VString "app") "app" eq_refl eq_refl eq_refl).
  - exact (proj1 (proj2 (getActivationCommand_cases (python_config "conda")))
             (VString "demo") "demo" eq_refl eq_refl eq_refl).
  - exact (proj1 (proj2 (proj2 (getActivationCommand_cases (python_config "none"))))
             eq_refl).
  - exact (proj2 (proj2 (proj2 (getActivationCommand_cases incomplete_config)))
             _ eq_refl eq_refl).
Defined.

(** Every kind but [venv] and [conda] gives the empty prefix. *)
Lemma getActivationCommand_other config environment :
  python_environment config = Ok environment →
  environment ≠ VString "venv" → environment ≠ VString "conda" →
  getActivationCommand config = Ok "".
Proof.
  intros Henv Hvenv Hconda. unfold getActivationCommand. rewrite Henv. simpl.
  destruct (is_string environment "venv") eqn:H1.
  { by apply is_string_eq in H1. }
  destruct (is_string environment "conda") eqn:H2.
  { by apply is_string_eq in H2. }
  done.
Qed.

(** For a conforming configuration the prefix of line 116 is always
    defined: it is the activation command when the flag is [true] and the
    kind is [venv] or [conda], and empty otherwise. *)
Lemma conforms_activationCommand config :
  conforms config = true →
  ∃ prefix autoActivate environment,
    activationCommand config = Ok prefix
    ∧ get_prop config "autoActivateEnvBeforeEachStep" = Ok autoActivate
    ∧ python_environment config = Ok environment
    ∧ (autoActivate = VBool true
       ∧ (environment = VString "venv" ∨ environment = VString "conda") →
       getActivationCommand config = Ok prefix ∧ prefix ≠ "")
    ∧ (¬ (autoActivate = VBool true
          ∧ (environment = VString "venv" ∨ environment = VString "conda")) →
       prefix = "").
Proof.
  intros H. apply record_inv in H as (o & -> & H).
  repeat (let H' := fresh "F" in apply andb_prop in H as [H H']).
  apply has_inv in H as (appId & HappId & Hs). apply is_str_inv in Hs as [id ->].
  apply has_inv in F2 as (appDirectory & Hdir & Hs). apply is_str_inv in Hs as [dir ->].
  assert (Hget : ∀ k, get_prop (VObject o) k = Ok (default VUndefined (own_property k o)))
    by done.
  assert (Henv : ∃ environment,
             python_environment (VObject o) = Ok environment
             ∧ (environment = VString "venv" ∨ environment = VString "conda"
                ∨ environment = VString "none" ∨ environment = VUndefined)).
  { unfold python_environment. rewrite Hget.
    apply may_have_inv in F1 as [->|(python & -> & Hp)]; simpl; [eauto 10|].
    apply record_inv in Hp as (po & -> & Hp).
    apply has_inv in Hp as (environment & Hpe & Hp). simpl. rewrite Hpe. simpl.
    exists environment. split; [done|].
    apply orb_prop in Hp as [Hp|Hp]; [apply orb_prop in Hp as [Hp|Hp]|];
      apply is_string_eq in Hp; auto. }
  destruct Henv as (environment & Henv & Hkind).
  assert (Hcmd : ∃ cmd, getActivationCommand (VObject o) = Ok cmd
             ∧ (environment = VString "venv" ∨ environment = VString "conda" → cmd ≠ "")
             ∧ (environment ≠ VString "venv" → environment ≠ VString "conda" → cmd = "")).
  { unfold getActivationCommand. rewrite Henv. simpl.
    destruct Hkind as [-> | [-> | [-> | ->]]]; simpl; rewrite ?Hdir, ?HappId; simpl;
      eexists; (split; [reflexivity|]); split; try done; intros [?|?]; done. }
  destruct Hcmd as (cmd & Hcmd & Hnonempty & Hempty).
  unfold activationCommand. rewrite Hget.
  assert (Hflag : default VUndefined (own_property "autoActivateEnvBeforeEachStep" o)
                  = VUndefined
                  ∨ ∃ b, default VUndefined
                           (own_property "autoActivateEnvBeforeEachStep" o) = VBool b).
  { apply may_have_inv in F5 as [->|(v & -> & Hb)]; [by left|].
    apply is_bool_inv in Hb as [b ->]. right; eauto. }
  destruct Hflag as [-> | [b ->]]; [|destruct b]; simpl.
  - exists "", VUndefined, environment. split_and!; try done; by intros [? _].
  - rewrite Hcmd. exists cmd, (VBool true), environment. split_and!; try done.
    + intros [_ ?]. split; [done|]. by apply Hnonempty.
    + intros Hnot. apply Hempty; intros ->; apply Hnot; auto.
  - exists "", (VBool false), environment. split_and!; try done; by intros [? _].
Qed.

End Activation.

(** ** The Script Runner *)

Section ScriptRunner.

Variable w : World.
Variables (config : value) (envVars : gmap string value) (dir : string).

(** What one call of the Script Runner does to the trace, for a script
    given as a string and a configuration whose activation prefix is
    defined. *)
Lemma runScript_string text prefix tr :
  activationCommand config = Ok prefix →
  runScript w (VString text) config envVars dir tr =
    let s := script_spawn (prefix +:+ text) envVars dir in
    let path := path_join w dir text in
    if endsWith text ".sh" then
      if chmodSync w tr path "755"
      then (tr ++ [EvChmod path "755"; EvExec s],
            if execSync w (tr ++ [EvChmod path "755"]) s then Ok tt
            else Throw SystemError)
      else (tr ++ [EvChmod path "755"], Throw SystemError)
    else (tr ++ [EvExec s], if execSync w tr s then Ok tt else Throw SystemError).
Proof.
  intros Hprefix. unfold runScript.
  rewrite (bind_lift_ok _ _ prefix) by done. simpl.
  unfold bind at 1. unfold lift at 1. unfold bind.
  destruct (endsWith text ".sh"); simpl; [|done].
  unfold chmod. destruct (chmodSync w tr _ "755"); [|done].
  unfold exec. by rewrite <-app_assoc.
Qed.

(** A throwing iteration ends the loop over the setup scripts. *)
Lemma for_of_throw {A} (body : A → M unit) x rest tr tr' e :
  body x tr = (tr', Throw e) → for_of (x :: rest) body tr = (tr', Throw e).
Proof. intros H. simpl. unfold bind. by rewrite H. Qed.

Lemma for_of_ok {A} (body : A → M unit) x rest tr tr' :
  body x tr = (tr', Ok tt) → for_of (x :: rest) body tr = for_of rest body tr'.
Proof. intros H. simpl. unfold bind. by rewrite H. Qed.

(** C9. A script whose name ends in [.sh] gets the permissions [755], on
    its path resolved against the base directory, before it is executed;
    when that fails the Script Runner throws without executing the script
    (and the loop over the remaining setup scripts ends with it); a script
    without the extension is executed without any permission change. *)
Theorem shell_scripts_are_made_executable text prefix tr :
  activationCommand config = Ok prefix →
  let s := script_spawn (prefix +:+ text) envVars dir in
  let path := path_join w dir text in
  (endsWith text ".sh" = true → chmodSync w tr path "755" = true →
     runScript w (VString text) config envVars dir tr
     = (tr ++ [EvChmod path "755"; EvExec s],
        if execSync w (tr ++ [EvChmod path "755"]) s then Ok tt else Throw SystemError))
  ∧ (endsWith text ".sh" = true → chmodSync w tr path "755" = false →
       runScript w (VString text) config envVars dir tr
       = (tr ++ [EvChmod path "755"], Throw SystemError)
       ∧ ∀ rest,
           for_of (VString text :: rest)
             (fun script => runScript w script config envVars dir) tr
           = (tr ++ [EvChmod path "755"], Throw SystemError))
  ∧ (endsWith text ".sh" = false →
       runScript w (VString text) config envVars dir tr
       = (tr ++ [EvExec s], if execSync w tr s then Ok tt else Throw SystemError)).
Proof.
  intros Hprefix s path. split_and!.
  - intros Hsh Hchmod. rewrite (runScript_string text prefix tr Hprefix). simpl.
    rewrite Hsh. fold path. by rewrite Hchmod.
  - intros Hsh Hchmod.
    assert (H : runScript w (VString text) config envVars dir tr
                = (tr ++ [EvChmod path "755"], Throw SystemError)).
    { rewrite (runScript_string text prefix tr Hprefix). simpl.
      rewrite Hsh. fold path. by rewrite Hchmod. }
    split; [done|]. intros rest. by apply for_of_throw.
  - intros Hsh. rewrite (runScript_string text prefix tr Hprefix). simpl.
    by rewrite Hsh.
Qed.

End ScriptRunner.

(** [a.sh] is made executable and then run with the activation prefix;
    [python app.py] is run as it is; and when the permission change fails
    nothing is executed. *)
Lemma shell_scripts_are_made_executable_witness :
  let w := demo_world demo_penv (demo_config false) always always in
  let w' := demo_world demo_penv (demo_config false) never always in
  let prefix := "source app/venv/bin/activate && " in
  runScript w (VString "a.sh") (demo_config false) ∅ "/srv" []
  = ([EvChmod "/srv/a.sh" "755";
      EvExec (script_spawn (prefix +:+ "a.sh") ∅ "/srv")], Ok tt)
  ∧ runScript w' (VString "a.sh") (demo_config false) ∅ "/srv" []
    = ([EvChmod "/srv/a.sh" "755"], Throw SystemError)
  ∧ runScript w (VString "python app.py") (demo_config false) ∅ "/srv" []
    = ([EvExec (script_spawn (prefix +:+ "python app.py") ∅ "/srv")], Ok tt).
Proof.
  intros w w' prefix. split_and!.
  - exact (proj1 (shell_scripts_are_made_executable w (demo_config false) ∅ "/srv"
                    "a.sh" prefix [] eq_refl) eq_refl eq_refl).
  - exact (proj1 (proj1 (proj2 (shell_scripts_are_made_executable w' (demo_config false)
                    ∅ "/srv" "a.sh" prefix [] eq_refl)) eq_refl eq_refl)).
  - exact (proj2 (proj2 (shell_scripts_are_made_executable w (demo_config false) ∅ "/srv"
                    "python app.py" prefix [] eq_refl)) eq_refl).
Defined.

(** ** The Orchestrator *)

Section SetupScripts.

Variable w : World.
Variables (config : value) (envVars : gmap string value) (dir prefix : string).
Hypothesis Hprefix : activationCommand config = Ok prefix.

Lemma executed_app tr1 tr2 : executed (tr1 ++ tr2) = executed tr1 ++ executed tr2.
Proof. apply omap_app. Qed.

(** The loop over the setup scripts runs them in order and stops at the
    first one that throws. *)
Lemma run_setup_scripts texts :
  ∀ tr, ∃ new r,
    for_of (VString <$> texts) (fun script => runScript w script config envVars dir) tr
    = (tr ++ new, r)
    ∧ executed new `prefix_of`
        ((fun text => script_spawn (prefix +:+ text) envVars dir) <$> texts)
    ∧ (r = Ok tt →
       executed new = (fun text => script_spawn (prefix +:+ text) envVars dir) <$> texts)
    ∧ ((∀ tr s, execSync w tr s = true) →
       (∀ tr path mode, chmodSync w tr path mode = true) → r = Ok tt).
Proof.
  induction texts as [|text texts IH]; intros tr.
  - exists [], (Ok tt). simpl. rewrite app_nil_r. by split_and!.
  - assert (Hrun := runScript_string w config envVars dir text prefix tr Hprefix).
    simpl in Hrun. rewrite fmap_cons.
    set (s := script_spawn (prefix +:+ text) envVars dir) in *.
    set (path := path_join w dir text) in *.
    destruct (endsWith text ".sh").
    + destruct (chmodSync w tr path "755") eqn:Hchmod.
      * destruct (execSync w (tr ++ [EvChmod path "755"]) s) eqn:Hexec.
        -- rewrite (for_of_ok (fun script => runScript w script config envVars dir)
                     (VString text) _ _ _ Hrun).
           destruct (IH (tr ++ [EvChmod path "755"; EvExec s])) as (new & r & -> & Hpre & Hall & Hok).
           exists ([EvChmod path "755"; EvExec s] ++ new), r.
           rewrite app_assoc. split_and!; try done.
           ++ rewrite executed_app. simpl. by apply prefix_cons.
           ++ intros Hr. rewrite executed_app. simpl. by rewrite (Hall Hr).
        -- rewrite (for_of_throw (fun script => runScript w script config envVars dir)
                     (VString text) _ _ _ _ Hrun).
           exists [EvChmod path "755"; EvExec s], (Throw SystemError).
           split_and!; try done.
           ++ simpl. apply prefix_cons, prefix_nil.
           ++ intros Hw. by rewrite Hw in Hexec.
      * rewrite (for_of_throw (fun script => runScript w script config envVars dir)
                     (VString text) _ _ _ _ Hrun).
        exists [EvChmod path "755"], (Throw SystemError).
        split_and!; try done.
        -- simpl. apply prefix_nil.
        -- intros _ Hw. by rewrite Hw in Hchmod.
    + destruct (execSync w tr s) eqn:Hexec.
      * rewrite (for_of_ok (fun script => runScript w script config envVars dir)
                     (VString text) _ _ _ Hrun).
        destruct (IH (tr ++ [EvExec s])) as (new & r & -> & Hpre & Hall & Hok).
        exists ([EvExec s] ++ new), r.
        rewrite app_assoc. split_and!; try done.
        -- rewrite executed_app. simpl. by apply prefix_cons.
        -- intros Hr. rewrite executed_app. simpl. by rewrite (Hall Hr).
      * rewrite (for_of_throw (fun script => runScript w script config envVars dir)
                     (VString text) _ _ _ _ Hrun).
        exists [EvExec s], (Throw SystemError).
        split_and!; try done.
        -- simpl. apply prefix_cons, prefix_nil.
        -- intros Hw. by rewrite Hw in Hexec.
Qed.

End SetupScripts.

Section Commands.

Lemma conforms_scripts_inv config :
  conforms config = true →
  ∃ scripts texts text,
    get_prop config "scripts" = Ok scripts
    ∧ get_prop scripts "setup" = Ok (VArray (VString <$> texts))
    ∧ get_prop scripts "start" = Ok (VString text).
Proof.
  intros H. apply record_inv in H as (o & -> & H).
  repeat (let H' := fresh "F" in apply andb_prop in H as [H H']).
  apply has_inv in F7 as (scripts & Hscripts & Hshape).
  apply record_inv in Hshape as (so & -> & Hshape).
  apply andb_prop in Hshape as [Hsetup Hstart].
  apply has_inv in Hsetup as (setup & Hsetup & Hall).
  apply all_of_inv in Hall as (l & -> & Hall).
  apply all_strings in Hall as [texts ->].
  apply has_inv in Hstart as (start & Hstart & Hs).
  apply is_str_inv in Hs as [text ->].
  exists (VObject so), texts, text. simpl. rewrite Hscripts, Hsetup, Hstart. done.
Qed.

Lemma main_install w baseDir dir config envVars :
  check_arguments w (Some "install") baseDir = Ok dir →
  readConfig w dir = Ok config →
  setEnvVars (process_env w) config = Ok envVars →
  main_body w (Some "install") baseDir [] = install w config envVars dir [].
Proof.
  intros Hargs Hconfig Henv. unfold main_body.
  rewrite (bind_lift_ok _ _ dir) by done.
  rewrite (bind_lift_ok _ _ config) by done.
  by rewrite (bind_lift_ok _ _ envVars).
Qed.

Lemma main_start w baseDir dir config envVars :
  check_arguments w (Some "start") baseDir = Ok dir →
  readConfig w dir = Ok config →
  setEnvVars (process_env w) config = Ok envVars →
  main_body w (Some "start") baseDir [] = start w config envVars dir [].
Proof.
  intros Hargs Hconfig Henv. unfold main_body.
  rewrite (bind_lift_ok _ _ dir) by done.
  rewrite (bind_lift_ok _ _ config) by done.
  by rewrite (bind_lift_ok _ _ envVars).
Qed.





End Commands.

Section StartCommand.

(** C7, as stated, fails: the start script [run.sh] ends in [.sh], and when
    it cannot be made executable the start command executes nothing. *)
Lemma start_without_permission_runs_nothing :
  let w := demo_world demo_penv (demo_config false) never always in
  conforms (demo_config false) = true
  ∧ readConfig w "/srv" = Ok (demo_config false)
  ∧ executed (trace (main w (Some "start") (Some "/srv"))) = []
  ∧ length (executed (trace (main w (Some "start") (Some "/srv")))) ≠ 1%nat.
Proof.
  intros w. split; [reflexivity|]. split; [reflexivity|].
  assert (H : executed (trace (main w (Some "start") (Some "/srv"))) = [])
    by (vm_compute; reflexivity).
  split; [exact H|]. rewrite H. discriminate.
Qed.

(** C7, amended. The start command calls the Script Runner once, on
    [scripts.start]: it executes at most one child process, and exactly one
    unless the script ends in [.sh] and cannot be made executable, in which
    case it executes none.  The command of that child is the activation
    prefix followed by [scripts.start] verbatim, and the prefix is not empty
    if and only if [autoActivateEnvBeforeEachStep] is [true] and the Python
    environment kind is [venv] or [conda]. *)
Theorem start_runs_one_script
    (w : World) (baseDir : option string) (dir : string) (config : value) :
  check_arguments w (Some "start") baseDir = Ok dir →
  readConfig w dir = Ok config →
  conforms config = true →
  ∃ envVars prefix scripts text autoActivate environment,
    setEnvVars (process_env w) config = Ok envVars
    ∧ activationCommand config = Ok prefix
    ∧ get_prop config "scripts" = Ok scripts
    ∧ get_prop scripts "start" = Ok (VString text)
    ∧ get_prop config "autoActivateEnvBeforeEachStep" = Ok autoActivate
    ∧ python_environment config = Ok environment
    ∧ let r := main w (Some "start") baseDir in
      let s := script_spawn (prefix +:+ text) envVars dir in
      let blocked :=
        endsWith text ".sh" = true
        ∧ chmodSync w [] (path_join w dir text) "755" = false in
      (blocked → executed (trace r) = [] ∧ exit_code r = 1%Z)
      ∧ (¬ blocked → executed (trace r) = [s])
      ∧ (autoActivate = VBool true
         ∧ (environment = VString "venv" ∨ environment = VString "conda") →
         getActivationCommand config = Ok prefix ∧ prefix ≠ "")
      ∧ (¬ (autoActivate = VBool true
            ∧ (environment = VString "venv" ∨ environment = VString "conda")) →
         prefix = "").
Proof.
  intros Hargs Hconfig Hconforms.
  destruct (conforms_setEnvVars (process_env w) config Hconforms) as [envVars Henv].
  destruct (conforms_activationCommand config Hconforms)
    as (prefix & autoActivate & environment & Hprefix & Hauto & Hkind & Hon & Hoff).
  destruct (conforms_scripts_inv config Hconforms)
    as (scripts & _ & text & Hscripts & _ & Hstart).
  exists envVars, prefix, scripts, text, autoActivate, environment.
  split_and!; try done.
  intros r s blocked.
  assert (Hbody : main_body w (Some "start") baseDir []
                  = runScript w (VString text) config envVars dir []).
  { rewrite (main_start w baseDir dir config envVars) by done.
    unfold start.
    rewrite (bind_lift_ok _ _ scripts) by done.
    by rewrite (bind_lift_ok _ _ (VString text)). }
  rewrite (runScript_string w config envVars dir text prefix [] Hprefix) in Hbody.
  simpl in Hbody. fold s in Hbody.
  split_and!; try done.
  - intros [Hsh Hchmod]. rewrite Hsh, Hchmod in Hbody.
    subst r. unfold main. by rewrite Hbody.
  - intros Hfree. subst r. unfold main. rewrite Hbody.
    destruct (endsWith text ".sh").
    + destruct (chmodSync w [] (path_join w dir text) "755").
      * by destruct (execSync w _ s).
      * by destruct Hfree.
    + by destruct (execSync w _ s).
Qed.

(** [run.sh] is run once, behind the activation prefix of the [venv]. *)
Lemma start_runs_one_script_witness :
  let w := demo_world demo_penv (demo_config false) always always in
  ∃ envVars,
    setEnvVars demo_penv (demo_config false) = Ok envVars
    ∧ executed (trace (main w (Some "start") (Some "/srv")))
      = [script_spawn "source app/venv/bin/activate && run.sh" envVars "/srv"].
Proof.
  intros w.
  destruct (start_runs_one_script w (Some "/srv") "/srv" (demo_config false)
              eq_refl eq_refl eq_refl)
    as (envVars & prefix & scripts & text & autoActivate & environment
        & Henv & Hprefix & Hscripts & Hstart & _ & _ & _ & Hone & _).
  injection Hprefix as <-. injection Hscripts as <-. injection Hstart as <-.
  exists envVars. split; [exact Henv|].
  apply Hone. intros [_ Hchmod]. discriminate Hchmod.
Defined.

End StartCommand.

(** ** Child processes and their environment *)

Section Emits.

Context (P : event → Prop).

Lemma emits_lift {A} (r : result A) : emits P (lift r).
Proof. intros tr. exists []. simpl. by rewrite app_nil_r. Qed.

Lemma emits_ret {A} (a : A) : emits P (ret a).
Proof. apply (emits_lift (Ok a)). Qed.

Lemma emits_bind {A B} (m : M A) (k : A → M B) :
  emits P m → (∀ a, emits P (k a)) → emits P (bind m k).
Proof.
  intros Hm Hk tr. destruct (Hm tr) as (new & Htr & Hnew).
  unfold bind. destruct (m tr) as [tr' [a|e]]; simpl in *; subst tr'.
  - destruct (Hk a (tr ++ new)) as (new' & -> & Hnew').
    exists (new ++ new'). rewrite app_assoc. split; [done|]. by apply Forall_app.
  - by exists new.
Qed.

Lemma emits_bind_lift {A B} (r : result A) (k : A → M B) :
  (∀ a, r = Ok a → emits P (k a)) → emits P (bind (lift r) k).
Proof.
  intros Hk tr. destruct r as [a|e]; simpl.
  - by apply Hk.
  - exists []. simpl. by rewrite app_nil_r.
Qed.

Lemma emits_for_of {A} (l : list A) (body : A → M unit) :
  (∀ x, emits P (body x)) → emits P (for_of l body).
Proof.
  intros Hbody. induction l as [|x l IH]; simpl.
  - apply emits_ret.
  - apply emits_bind; [apply Hbody | intros _; apply IH].
Qed.

Lemma emits_chmod w path mode : P (EvChmod path mode) → emits P (chmod w path mode).
Proof. intros H tr. exists [EvChmod path mode]. simpl. split; [done|]. by constructor. Qed.

Lemma emits_exec w s : P (EvExec s) → emits P (exec w s).
Proof. intros H tr. exists [EvExec s]. simpl. split; [done|]. by constructor. Qed.

Lemma emits_runScript w script config envVars dir :
  (∀ path mode, P (EvChmod path mode)) →
  (∀ cmd, P (EvExec (script_spawn cmd envVars dir))) →
  emits P (runScript w script config envVars dir).
Proof.
  intros Hchmod Hexec. unfold runScript.
  apply emits_bind_lift; intros activation _.
  apply emits_bind_lift; intros text _.
  apply emits_bind.
  - destruct (endsWith text ".sh"); [by apply emits_chmod | apply emits_ret].
  - intros _. by apply emits_exec.
Qed.

Lemma emits_initializeRepo w config :
  (∀ cmd, P (EvExec (plain_spawn cmd))) → emits P (initializeRepo w config).
Proof.
  intros Hexec. unfold initializeRepo.
  apply emits_bind_lift; intros repo _. apply emits_bind_lift; intros dir _.
  apply emits_bind; [by apply emits_exec|]. intros _.
  apply emits_bind_lift; intros dir' _. apply emits_bind_lift; intros version _.
  by apply emits_exec.
Qed.

Lemma emits_setupPythonEnvironment w config :
  (∀ cmd, P (EvExec (plain_spawn cmd))) → emits P (setupPythonEnvironment w config).
Proof.
  intros Hexec. unfold setupPythonEnvironment.
  apply emits_bind_lift; intros environment _.
  destruct (is_string environment "venv").
  - apply emits_bind_lift; intros dir _. by apply emits_exec.
  - apply emits_bind_lift; intros environment' _.
    destruct (is_string environment' "conda"); [|apply emits_ret].
    apply emits_bind_lift; intros id _. by apply emits_exec.
Qed.

End Emits.

Section Children.

Lemma includes_commands command :
  includes ["install"; "start"] command = true →
  command = Some "install" ∨ command = Some "start".
Proof.
  destruct command as [c|]; simpl; [|discriminate].
  destruct (String.eqb c "install") eqn:H1.
  { apply String.eqb_eq in H1. subst. by left. }
  destruct (String.eqb c "start") eqn:H2.
  { apply String.eqb_eq in H2. subst. by right. }
  discriminate.
Qed.

Lemma check_arguments_command w command baseDir dir :
  check_arguments w command baseDir = Ok dir →
  (command = Some "install" ∨ command = Some "start")
  ∧ baseDir = Some dir ∧ dir ≠ "" ∧ existsSync w dir = true.
Proof.
  unfold check_arguments.
  destruct (missing command); simpl; [discriminate|].
  destruct (includes _ command) eqn:Hcmd; simpl; [|discriminate].
  destruct baseDir as [d|]; simpl; [|discriminate].
  destruct (String.eqb d "") eqn:Hd; [discriminate|].
  destruct (existsSync w d) eqn:Hex; simpl; [|discriminate].
  intros [= <-]. split_and!; try done.
  - by apply includes_commands.
  - intros ->. discriminate Hd.
Qed.

Lemma trace_main w command baseDir :
  trace (main w command baseDir) = (main_body w command baseDir []).1.
Proof. unfold main. by destruct (main_body w command baseDir []) as [tr [[]|e]]. Qed.

Lemma emits_impl {A} (P Q : event → Prop) (m : M A) :
  (∀ e, P e → Q e) → emits P m → emits Q m.
Proof.
  intros HPQ Hm tr. destruct (Hm tr) as (new & ? & Hnew). exists new. split; [done|].
  by eapply Forall_impl.
Qed.

Lemma dispatch_by_design w command config envVars dir :
  emits (by_design command config envVars dir)
    (if is_command command "install" then install w config envVars dir
     else if is_command command "start" then start w config envVars dir
     else ret tt).
Proof.
  assert (Hscript : ∀ script,
            emits (by_design command config envVars dir)
              (runScript w script config envVars dir)).
  { intros script. apply emits_runScript; [done|]. intros cmd. left. by exists cmd. }
  destruct (is_command command "install") eqn:Hinstall.
  - assert (command = Some "install") as Hcommand.
    { destruct command as [c|]; [|discriminate]. simpl in Hinstall.
      apply String.eqb_eq in Hinstall. by subst. }
    unfold install. apply emits_bind_lift. intros autoInitialize Hauto.
    apply emits_bind.
    + destruct (truthy autoInitialize) eqn:Htruthy; [|apply emits_ret].
      assert (Hplain : ∀ cmd, by_design command config envVars dir
                                (EvExec (plain_spawn cmd))).
      { intros cmd. right. split_and!; [by exists cmd | done | by exists autoInitialize]. }
      apply emits_bind; [by apply emits_initializeRepo|].
      intros _. by apply emits_setupPythonEnvironment.
    + intros _. apply emits_bind_lift; intros scripts _.
      apply emits_bind_lift; intros setup _.
      apply emits_bind_lift; intros setupScripts _. by apply emits_for_of.
  - destruct (is_command command "start"); [|apply emits_ret].
    unfold start. apply emits_bind_lift; intros scripts _.
    apply emits_bind_lift; intros script _. apply Hscript.
Qed.

(** C2, as stated, fails: with [autoInitialize] set, the clone of the
    repository is a child process started without the [shell] and [env]
    options, so neither through [/bin/bash] nor with the built mapping. *)
Lemma clone_does_not_get_the_built_environment :
  let w := demo_world demo_penv (demo_config true) always always in
  let clone := plain_spawn ("git clone https://example.org/demo.git "
                            +:+ dquote +:+ "app" +:+ dquote) in
  clone ∈ executed (trace (main w (Some "install") (Some "/srv")))
  ∧ shell clone ≠ Some "/bin/bash"
  ∧ ∀ envVars, env clone ≠ Some envVars.
Proof.
  intros w clone. split; [|split; [discriminate | intros envVars; discriminate]].
  assert (H : ∃ rest, executed (trace (main w (Some "install") (Some "/srv")))
                      = clone :: rest).
  { eexists. vm_compute. reflexivity. }
  destruct H as [rest ->]. by apply elem_of_cons; left.
Qed.

(** C2, amended. Every child process of a run comes after the arguments
    were accepted, the configuration was read and the environment mapping
    was built.  It is either a script run by the Script Runner, through
    [/bin/bash], with the built mapping as environment (where [APP_REPO],
    [APP_VERSION] and [APP_DIRECTORY] are defined) and the base directory as
    working directory; or one of the commands of the Repository Initializer
    and the Python Environment Provisioner, which are started without
    [shell], [env] or [cwd] option (default shell, environment of the
    running process) and only by [install] with a truthy [autoInitialize]. *)
Theorem children_of_main
    (w : World) (command baseDir : option string) (s : spawn) :
  s ∈ executed (trace (main w command baseDir)) →
  ∃ dir config envVars,
    check_arguments w command baseDir = Ok dir
    ∧ readConfig w dir = Ok config
    ∧ setEnvVars (process_env w) config = Ok envVars
    ∧ ((∃ cmd, s = script_spawn cmd envVars dir)
       ∧ shell s = Some "/bin/bash" ∧ env s = Some envVars ∧ cwd s = Some dir
       ∧ is_Some (envVars !! "APP_REPO")
       ∧ is_Some (envVars !! "APP_VERSION")
       ∧ is_Some (envVars !! "APP_DIRECTORY")
       ∨ (∃ cmd, s = plain_spawn cmd)
         ∧ shell s = None ∧ env s = None ∧ cwd s = None
         ∧ command = Some "install"
         ∧ ∃ autoInitialize,
             get_prop config "autoInitialize" = Ok autoInitialize
             ∧ truthy autoInitialize = true).
Proof.
  intros Hin. rewrite trace_main in Hin.
  destruct (check_arguments w command baseDir) as [dir|e] eqn:Hargs.
  2:{ unfold main_body in Hin. rewrite (bind_lift_throw _ _ e _ Hargs) in Hin.
      by apply elem_of_nil in Hin. }
  destruct (readConfig w dir) as [config|e] eqn:Hconfig.
  2:{ unfold main_body in Hin. rewrite (bind_lift_ok _ _ dir _ Hargs) in Hin.
      rewrite (bind_lift_throw _ _ e _ Hconfig) in Hin. by apply elem_of_nil in Hin. }
  destruct (setEnvVars (process_env w) config) as [envVars|e] eqn:Henv.
  2:{ unfold main_body in Hin. rewrite (bind_lift_ok _ _ dir _ Hargs) in Hin.
      rewrite (bind_lift_ok _ _ config _ Hconfig) in Hin.
      rewrite (bind_lift_throw _ _ e _ Henv) in Hin. by apply elem_of_nil in Hin. }
  exists dir, config, envVars. split_and!; try done.
  unfold main_body in Hin. rewrite (bind_lift_ok _ _ dir _ Hargs) in Hin.
  rewrite (bind_lift_ok _ _ config _ Hconfig) in Hin.
  rewrite (bind_lift_ok _ _ envVars _ Henv) in Hin.
  destruct (dispatch_by_design w command config envVars dir []) as (new & Hnew & Hall).
  rewrite Hnew in Hin. simpl in Hin.
  apply list_elem_of_omap in Hin as (e & He & Hs).
  destruct e as [|s']; [discriminate|]. injection Hs as ->.
  rewrite Forall_forall in Hall. specialize (Hall _ He). simpl in Hall.
  destruct Hall as [[cmd ->]|([cmd ->] & Hcommand & Hauto)].
  - left. split_and!; try done; [by exists cmd|..].
    all: destruct (setEnvVars_inv _ _ _ Henv)
           as (repo & version & directory & _ & _ & _ & Hkeep).
    + destruct (process_env w !! "APP_REPO") as [v|] eqn:Hp; eexists; apply Hkeep;
        rewrite initial_env_lookup, Hp; reflexivity.
    + destruct (process_env w !! "APP_VERSION") as [v|] eqn:Hp; eexists; apply Hkeep;
        rewrite initial_env_lookup, Hp; reflexivity.
    + destruct (process_env w !! "APP_DIRECTORY") as [v|] eqn:Hp; eexists; apply Hkeep;
        rewrite initial_env_lookup, Hp; reflexivity.
  - right. split_and!; try done. by exists cmd.
Qed.

(** In a full install of the sample configuration, [a.sh] is a child of the
    Script Runner: through [/bin/bash], with the built mapping. *)
Lemma children_of_main_witness :
  let w := demo_world demo_penv (demo_config true) always always in
  let s := script_spawn "source app/venv/bin/activate && a.sh" demo_env "/srv" in
  s ∈ executed (trace (main w (Some "install") (Some "/srv")))
  ∧ setEnvVars demo_penv (demo_config true) = Ok demo_env
  ∧ shell s = Some "/bin/bash"
  ∧ is_Some (demo_env !! "APP_REPO").
Proof.
  intros w s.
  assert (Hin : s ∈ executed (trace (main w (Some "install") (Some "/srv")))).
  { apply (list_elem_of_lookup_2 _ 3%nat). vm_compute. reflexivity. }
  split; [exact Hin|].
  destruct (children_of_main w (Some "install") (Some "/srv") s Hin)
    as (dir & config & envVars & Hargs & Hconfig & Henv & H).
  injection Hargs as <-. injection Hconfig as <-.
  destruct H as [(_ & Hshell & Hs & _ & Hrepo & _)|(_ & Hshell & _)].
  - injection Hs as <-. split_and!; [exact Henv | exact Hshell | exact Hrepo].
  - discriminate Hshell.
Defined.

End Children.

(** ** Stopping at the first failure *)

Section Halting.

Variable w : World.

Lemma snoc_eq_middle {A} (tr before after : list A) (e x : A) :
  tr ++ [e] = before ++ x :: after →
  (after = [] ∧ before = tr ∧ x = e)
  ∨ ∃ after', after = after' ++ [e] ∧ tr = before ++ x :: after'.
Proof.
  destruct after as [|y after _] using rev_ind; intros H.
  - left. apply app_inj_tail in H as [-> ->]. done.
  - right. exists after.
    change (x :: after ++ [y]) with ((x :: after) ++ [y]) in H.
    rewrite app_assoc in H. by apply app_inj_tail in H as [-> ->].
Qed.

Lemma clean_nil : clean w [].
Proof. intros before s after H. by destruct before. Qed.

Lemma clean_failure_is_last tr : clean w tr → failure_is_last w tr.
Proof. intros Hclean before s after Htr Hfail. rewrite (Hclean _ _ _ Htr) in Hfail. done. Qed.

Lemma clean_chmod tr path mode : clean w tr → clean w (tr ++ [EvChmod path mode]).
Proof.
  intros Hclean before s after H.
  apply snoc_eq_middle in H as [(_ & _ & ?)|(after' & _ & Htr)]; [done|].
  by eapply Hclean.
Qed.

Lemma clean_exec tr s : clean w tr → execSync w tr s = true → clean w (tr ++ [EvExec s]).
Proof.
  intros Hclean Hok before s' after H.
  apply snoc_eq_middle in H as [(_ & -> & [= ->])|(after' & _ & Htr)]; [done|].
  by eapply Hclean.
Qed.

Lemma failed_exec_is_last tr s : clean w tr → failure_is_last w (tr ++ [EvExec s]).
Proof.
  intros Hclean before s' after H Hfail.
  apply snoc_eq_middle in H as [(? & _)|(after' & _ & Htr)]; [done|].
  rewrite (Hclean _ _ _ Htr) in Hfail. done.
Qed.

Lemma halts_lift {A} (r : result A) : halts_on_failure w (lift r).
Proof.
  intros tr Hclean. unfold lift. destruct r; [done|]. by apply clean_failure_is_last.
Qed.

Lemma halts_ret {A} (a : A) : halts_on_failure w (ret a).
Proof. apply (halts_lift (Ok a)). Qed.

Lemma halts_bind {A B} (m : M A) (k : A → M B) :
  halts_on_failure w m → (∀ a, halts_on_failure w (k a)) → halts_on_failure w (bind m k).
Proof.
  intros Hm Hk tr Hclean. specialize (Hm tr Hclean). unfold bind.
  destruct (m tr) as [tr' [a|e]]; [|done]. by apply Hk.
Qed.

Lemma halts_for_of {A} (l : list A) (body : A → M unit) :
  (∀ x, halts_on_failure w (body x)) → halts_on_failure w (for_of l body).
Proof.
  intros Hbody. induction l as [|x l IH]; simpl.
  - apply halts_ret.
  - apply halts_bind; [apply Hbody | intros _; apply IH].
Qed.

Lemma halts_chmod path mode : halts_on_failure w (chmod w path mode).
Proof.
  intros tr Hclean. unfold chmod.
  destruct (chmodSync w tr path mode).
  - by apply clean_chmod.
  - by apply clean_failure_is_last, clean_chmod.
Qed.

Lemma halts_exec s : halts_on_failure w (exec w s).
Proof.
  intros tr Hclean. unfold exec.
  destruct (execSync w tr s) eqn:Hok.
  - by apply clean_exec.
  - by apply failed_exec_is_last.
Qed.

Lemma halts_runScript script config envVars dir :
  halts_on_failure w (runScript w script config envVars dir).
Proof.
  unfold runScript.
  apply halts_bind; [apply halts_lift|]. intros activation.
  apply halts_bind; [apply halts_lift|]. intros text.
  apply halts_bind; [|intros _; apply halts_exec].
  destruct (endsWith text ".sh"); [apply halts_chmod | apply halts_ret].
Qed.

Lemma halts_initializeRepo config : halts_on_failure w (initializeRepo w config).
Proof.
  unfold initializeRepo.
  apply halts_bind; [apply halts_lift|]. intros repo.
  apply halts_bind; [apply halts_lift|]. intros dir.
  apply halts_bind; [apply halts_exec|]. intros _.
  apply halts_bind; [apply halts_lift|]. intros dir'.
  apply halts_bind; [apply halts_lift|]. intros version.
  apply halts_exec.
Qed.

Lemma halts_setupPythonEnvironment config :
  halts_on_failure w (setupPythonEnvironment w config).
Proof.
  unfold setupPythonEnvironment.
  apply halts_bind; [apply halts_lift|]. intros environment.
  destruct (is_string environment "venv").
  - apply halts_bind; [apply halts_lift|]. intros dir. apply halts_exec.
  - apply halts_bind; [apply halts_lift|]. intros environment'.
    destruct (is_string environment' "conda"); [|apply halts_ret].
    apply halts_bind; [apply halts_lift|]. intros id. apply halts_exec.
Qed.

Lemma halts_install config envVars dir : halts_on_failure w (install w config envVars dir).
Proof.
  unfold install.
  apply halts_bind; [apply halts_lift|]. intros autoInitialize.
  apply halts_bind.
  - destruct (truthy autoInitialize); [|apply halts_ret].
    apply halts_bind; [apply halts_initializeRepo|].
    intros _. apply halts_setupPythonEnvironment.
  - intros _. apply halts_bind; [apply halts_lift|]. intros scripts.
    apply halts_bind; [apply halts_lift|]. intros setup.
    apply halts_bind; [apply halts_lift|]. intros setupScripts.
    apply halts_for_of. intros script. apply halts_runScript.
Qed.

Lemma halts_start config envVars dir : halts_on_failure w (start w config envVars dir).
Proof.
  unfold start.
  apply halts_bind; [apply halts_lift|]. intros scripts.
  apply halts_bind; [apply halts_lift|]. intros script.
  apply halts_runScript.
Qed.

Lemma halts_main_body command baseDir : halts_on_failure w (main_body w command baseDir).
Proof.
  unfold main_body.
  apply halts_bind; [apply halts_lift|]. intros dir.
  apply halts_bind; [apply halts_lift|]. intros config.
  apply halts_bind; [apply halts_lift|]. intros envVars.
  destruct (is_command command "install"); [apply halts_install|].
  destruct (is_command command "start"); [apply halts_start | apply halts_ret].
Qed.

(** C6. When a child process of a run exits with a non-zero status, it is
    the last event of the run: no later setup script (nor anything else) is
    executed, and the process exits with status 1. *)
Theorem failed_child_ends_the_run
    (command baseDir : option string) (before after : list event) (s : spawn) :
  trace (main w command baseDir) = before ++ EvExec s :: after →
  execSync w before s = false →
  after = [] ∧ exit_code (main w command baseDir) = 1%Z.
Proof.
  intros Htrace Hfail. unfold main in *.
  pose proof (halts_main_body command baseDir [] clean_nil) as H.
  destruct (main_body w command baseDir []) as [tr [[]|e]]; simpl in *; subst tr.
  - by rewrite (H _ _ _ eq_refl) in Hfail.
  - split; [|done]. by eapply H.
Qed.

End Halting.

(** The sequence [a.sh, b.sh] where [a.sh] exits with a non-zero status:
    [b.sh] is not run and the exit status is 1. *)
Lemma failed_child_ends_the_run_witness :
  let w := demo_world demo_penv (demo_config false) always (except "a.sh") in
  let a := script_spawn "source app/venv/bin/activate && a.sh" demo_env "/srv" in
  get_prop demo_scripts "setup" = Ok (VArray [VString "a.sh"; VString "b.sh"])
  ∧ trace (main w (Some "install") (Some "/srv")) = [EvChmod "/srv/a.sh" "755"; EvExec a]
  ∧ exit_code (main w (Some "install") (Some "/srv")) = 1%Z.
Proof.
  intros w a. split; [reflexivity|].
  assert (Htrace : trace (main w (Some "install") (Some "/srv"))
                   = [EvChmod "/srv/a.sh" "755"] ++ EvExec a :: []).
  { vm_compute. reflexivity. }
  split; [exact Htrace|].
  exact (proj2 (failed_child_ends_the_run w (Some "install") (Some "/srv")
                  [EvChmod "/srv/a.sh" "755"] [] a Htrace eq_refl)).
Defined.

(** * Further properties of the program *)

(** ** The command line *)

Section CommandLine.

Variable w : World.

(** X1. The command line is checked before anything else, and in a fixed
    order: a missing or unknown command is reported even when the directory
    is wrong as well; then a missing (or empty) directory; then a directory
    that does not exist.  Each ends the run with status 1 and an empty trace. *)
Theorem usage_errors (command baseDir : option string) :
  (missing command = true ∨ includes ["install"; "start"] command = false →
   main w command baseDir
   = {| trace := [];
        reported := Some (Error ("Please provide a valid command: " +:+ dquote
                                 +:+ "install" +:+ dquote +:+ " or " +:+ dquote
                                 +:+ "start" +:+ dquote));
        exit_code := 1 |})
  ∧ (command = Some "install" ∨ command = Some "start" →
     missing baseDir = true →
     main w command baseDir
     = {| trace := [];
          reported := Some (Error "Please provide a directory as a command line argument.");
          exit_code := 1 |})
  ∧ (∀ dir,
       command = Some "install" ∨ command = Some "start" →
       baseDir = Some dir → dir ≠ "" → existsSync w dir = false →
       main w command baseDir
       = {| trace := [];
            reported := Some (Error ("Specified directory does not exist: " +:+ dir));
            exit_code := 1 |}).
Proof.
  split_and!.
  - intros H. apply main_throw_early. unfold check_arguments.
    destruct H as [-> | H]; [done|]. rewrite H. by rewrite orb_true_r.
  - intros Hcommand Hdir. apply main_throw_early. unfold check_arguments.
    rewrite Hdir. by destruct Hcommand as [-> | ->].
  - intros dir Hcommand -> Hne Hex. apply main_throw_early. unfold check_arguments.
    assert (Hdir : missing (Some dir) = false).
    { simpl. destruct (String.eqb dir "") eqn:H; [|done].
      apply String.eqb_eq in H. contradiction. }
    rewrite Hdir. simpl. rewrite Hex. by destruct Hcommand as [-> | ->].
Qed.

End CommandLine.

Lemma usage_errors_witness :
  let w := demo_world demo_penv (demo_config false) always always in
  reported (main w (Some "deploy") None)
  = Some (Error ("Please provide a valid command: " +:+ dquote +:+ "install"
                 +:+ dquote +:+ " or " +:+ dquote +:+ "start" +:+ dquote))
  ∧ reported (main w (Some "install") (Some ""))
    = Some (Error "Please provide a directory as a command line argument.")
  ∧ reported (main world_without_config (Some "start") (Some "/srv/openlab.yaml"))
    = Some (Error "Specified directory does not exist: /srv/openlab.yaml").
Proof.
  intros w. split_and!.
  - rewrite (proj1 (usage_errors w (Some "deploy") None)); [done | by right].
  - rewrite (proj1 (proj2 (usage_errors w (Some "install") (Some "")))); [done | by left | done].
  - rewrite (proj2 (proj2 (usage_errors world_without_config (Some "start")
                             (Some "/srv/openlab.yaml"))) "/srv/openlab.yaml");
      [done | by right | done | done | done].
Defined.

(** ** Reading the configuration file *)

Section ConfigFile.

Variable w : World.

(** X2. When [openlab.yaml] is not in the base directory the run ends with
    "Config file not found: " and the path, status 1, before the file is
    read or anything is executed. *)
Theorem config_file_not_found (command baseDir : option string) (dir : string) :
  check_arguments w command baseDir = Ok dir →
  existsSync w (path_join w dir "openlab.yaml") = false →
  main w command baseDir
  = {| trace := [];
       reported := Some (Error ("Config file not found: "
                                +:+ path_join w dir "openlab.yaml"));
       exit_code := 1 |}.
Proof.
  intros Hargs Hex. apply (main_throw_config w command baseDir dir); [done|].
  unfold readConfig. by rewrite Hex.
Qed.

(** X3. A [SyntaxError] of the parser is reported as "Invalid JSON format
    in config file: <path>. Error: <message>" (for a YAML file); an error of
    another kind, from reading or from parsing, is reported as it is.  In
    both cases the exit status is 1 and nothing is executed. *)
Theorem parse_errors_are_reported (command baseDir : option string) (dir : string) :
  check_arguments w command baseDir = Ok dir →
  existsSync w (path_join w dir "openlab.yaml") = true →
  (∀ content msg,
     readFileSync w (path_join w dir "openlab.yaml") = Ok content →
     parse w content = Throw (SyntaxError msg) →
     main w command baseDir
     = {| trace := [];
          reported := Some (Error ("Invalid JSON format in config file: "
                                   +:+ path_join w dir "openlab.yaml"
                                   +:+ ". Error: " +:+ msg));
          exit_code := 1 |})
  ∧ (∀ e,
       (∀ msg, e ≠ SyntaxError msg) →
       readFileSync w (path_join w dir "openlab.yaml") = Throw e
       ∨ (∃ content, readFileSync w (path_join w dir "openlab.yaml") = Ok content
                     ∧ parse w content = Throw e) →
       main w command baseDir
       = {| trace := []; reported := Some e; exit_code := 1 |}).
Proof.
  intros Hargs Hex. split.
  - intros content msg Hread Hparse.
    apply (main_throw_config w command baseDir dir); [done|].
    unfold readConfig. rewrite Hex, Hread. simpl. by rewrite Hparse.
  - intros e Hkind H. apply (main_throw_config w command baseDir dir); [done|].
    unfold readConfig. rewrite Hex. simpl.
    destruct H as [Hread | (content & Hread & Hparse)].
    + rewrite Hread. simpl. destruct e; try done. by destruct (Hkind msg).
    + rewrite Hread. simpl. rewrite Hparse. simpl.
      destruct e; try done. by destruct (Hkind msg).
Qed.

End ConfigFile.

Lemma config_file_not_found_witness :
  main world_without_config (Some "install") (Some "/srv")
  = {| trace := [];
       reported := Some (Error "Config file not found: /srv/openlab.yaml");
       exit_code := 1 |}.
Proof.
  exact (config_file_not_found world_without_config (Some "install") (Some "/srv")
           "/srv" eq_refl eq_refl).
Defined.

Lemma parse_errors_are_reported_witness :
  main world_with_bad_yaml (Some "start") (Some "/srv")
  = {| trace := [];
       reported := Some (Error ("Invalid JSON format in config file: /srv/openlab.yaml"
                                +:+ ". Error: unexpected end of the stream"));
       exit_code := 1 |}.
Proof.
  exact (proj1 (parse_errors_are_reported world_with_bad_yaml (Some "start")
                  (Some "/srv") "/srv" eq_refl eq_refl)
           "appId: [" "unexpected end of the stream" eq_refl eq_refl).
Defined.

(** ** What the Config Loader accepts *)

Section Acceptance.

Lemma check_required_ok_inv o props :
  Forall (fun p => inherited_from_object p = false) props →
  check_required props (VObject o) = Ok tt →
  ∀ p, p ∈ props → is_Some (own_property p o).
Proof.
  induction 1 as [|q props Hq _ IH]; simpl; intros H p Hp.
  - by apply elem_of_nil in Hp.
  - rewrite Hq, orb_false_r in H. destruct (owns q o) eqn:Hown; [|discriminate].
    apply elem_of_cons in Hp as [->|Hp]; [by apply owns_true | by apply IH].
Qed.

Lemma required_none_inherited :
  Forall (fun p => inherited_from_object p = false) requiredProps.
Proof. apply Forall_forall. intros p Hp. by apply required_not_inherited. Qed.

Lemma check_scripts_ok_inv o :
  check_scripts (VObject o) = Ok tt →
  ∃ scripts setup start,
    own_property "scripts" o = Some scripts
    ∧ get_prop scripts "setup" = Ok (VArray setup)
    ∧ get_prop scripts "start" = Ok start
    ∧ truthy start = true.
Proof.
  unfold check_scripts. simpl.
  destruct (own_property "scripts" o) as [scripts|] eqn:Hscripts; simpl; [|discriminate].
  destruct (get_prop scripts "setup") as [setup|] eqn:Hsetup; simpl; [|discriminate].
  destruct (truthy setup); simpl; [|discriminate].
  destruct setup; simpl; try discriminate.
  destruct (get_prop scripts "start") as [start|] eqn:Hstart; simpl; [|discriminate].
  destruct (truthy start) eqn:Htruthy; simpl; [|discriminate].
  intros _. by exists scripts, l, start.
Qed.

(** X4. Exactly the parsed values of this shape pass validation, and they
    are returned unchanged: an object that owns the six required keys and
    whose [scripts] has an array [setup] (an empty one will do) and a truthy
    [start].  Nothing else about the configuration is looked at. *)
Theorem validate_accepts_iff (config c : value) :
  validate config = Ok c ↔
  c = config
  ∧ ∃ o scripts setup start,
      config = VObject o
      ∧ (∀ p, p ∈ requiredProps → is_Some (own_property p o))
      ∧ own_property "scripts" o = Some scripts
      ∧ get_prop scripts "setup" = Ok (VArray setup)
      ∧ get_prop scripts "start" = Ok start
      ∧ truthy start = true.
Proof.
  split.
  - intros H. destruct (validate_ok_inv _ _ H) as [-> [o ->]]. split; [done|].
    unfold validate in H.
    apply rbind_ok_inv in H as ([] & Hreq & H).
    apply rbind_ok_inv in H as ([] & Hscripts & _).
    destruct (check_scripts_ok_inv o Hscripts) as (scripts & setup & start & ? & ? & ? & ?).
    exists o, scripts, setup, start. split_and!; try done.
    by apply (check_required_ok_inv o requiredProps required_none_inherited).
  - intros (-> & o & scripts & setup & start & -> & Hall & Hscripts & Hsetup & Hstart & Htruthy).
    unfold validate. rewrite (check_required_all_owned o requiredProps Hall). simpl.
    unfold check_scripts. simpl. rewrite Hscripts. simpl.
    rewrite Hsetup. simpl. rewrite Hstart. simpl. by rewrite Htruthy.
Qed.

(** X5. With the six keys present, a [scripts] that is [null] makes
    validation throw a [TypeError]; any other [scripts] whose [setup] is not
    an array or whose [start] is falsy (missing, empty, [0], [false]) gives
    the error "Invalid scripts configuration in config". *)
Theorem invalid_scripts_rejected (o : list (string * value)) (scripts : value) :
  (∀ p, p ∈ requiredProps → is_Some (own_property p o)) →
  own_property "scripts" o = Some scripts →
  (scripts = VNull → validate (VObject o) = Throw TypeError)
  ∧ (∀ setup start,
       get_prop scripts "setup" = Ok setup →
       get_prop scripts "start" = Ok start →
       isArray setup && truthy start = false →
       validate (VObject o) = Throw (Error "Invalid scripts configuration in config")).
Proof.
  intros Hall Hscripts. split.
  - intros ->. unfold validate.
    rewrite (check_required_all_owned o requiredProps Hall). simpl.
    unfold check_scripts. simpl. by rewrite Hscripts.
  - intros setup start Hsetup Hstart Hbad. unfold validate.
    rewrite (check_required_all_owned o requiredProps Hall). simpl.
    unfold check_scripts. simpl. rewrite Hscripts. simpl. rewrite Hsetup. simpl.
    destruct (truthy setup); simpl; [|done].
    destruct (isArray setup); simpl in *; [|done].
    rewrite Hstart. simpl. by rewrite Hbad.
Qed.

End Acceptance.

Lemma invalid_scripts_rejected_witness :
  validate (VObject [ ("appId", VString "demo"); ("source", VString "github");
                      ("scripts", VNull); ("appRepository", VString "r");
                      ("appVersion", VString "v"); ("appDirectory", VString "d") ])
  = Throw TypeError
  ∧ validate (VObject [ ("appId", VString "demo"); ("source", VString "github");
                        ("scripts", VObject [ ("setup", VString "a.sh");
                                              ("start", VString "run.sh") ]);
                        ("appRepository", VString "r");
                        ("appVersion", VString "v"); ("appDirectory", VString "d") ])
    = Throw (Error "Invalid scripts configuration in config").
Proof.
  assert (Hkeys : ∀ scripts p, p ∈ requiredProps →
            is_Some (own_property p
              [ ("appId", VString "demo"); ("source", VString "github");
                ("scripts", scripts); ("appRepository", VString "r");
                ("appVersion", VString "v"); ("appDirectory", VString "d") ])).
  { intros scripts p. unfold requiredProps. rewrite !elem_of_cons, elem_of_nil.
    intros H. decompose [or] H; subst; try contradiction; simpl; eauto. }
  split.
  - exact (proj1 (invalid_scripts_rejected _ VNull (Hkeys VNull) eq_refl) eq_refl).
  - exact (proj2 (invalid_scripts_rejected _
                    (VObject [("setup", VString "a.sh"); ("start", VString "run.sh")])
                    (Hkeys _) eq_refl)
             (VString "a.sh") (VString "run.sh") eq_refl eq_refl eq_refl).
Defined.

(** ** Where the entries of the environment mapping come from *)

Section Origin.

Variable step : gmap string value → value → result (gmap string value).
Hypothesis step_adds_new : adds_new step.
Hypothesis step_origin :
  ∀ envVars option envVars' k v,
    step envVars option = Ok envVars' → envVars' !! k = Some v →
    envVars !! k = Some v
    ∨ (envVars !! k = None ∧ inherited_from_object k = false
       ∧ ∃ envVar, get_prop option "envVar" = Ok envVar ∧ to_string envVar = Ok k).

Lemma fold_env_origin options :
  ∀ envVars envVars' k v,
    fold_env step options envVars = Ok envVars' → envVars' !! k = Some v →
    envVars !! k = Some v
    ∨ (envVars !! k = None ∧ inherited_from_object k = false
       ∧ ∃ option envVar, option ∈ options ∧ get_prop option "envVar" = Ok envVar
                          ∧ to_string envVar = Ok k).
Proof.
  induction options as [|option rest IH]; simpl; intros envVars envVars' k v H Hk.
  - injection H as <-. by left.
  - apply rbind_ok_inv in H as (mid & Hmid & H).
    assert (Hnone : mid !! k = None → envVars !! k = None).
    { intros Hm. destruct (envVars !! k) as [v0|] eqn:He; [|done].
      rewrite (step_adds_new _ _ _ _ _ Hmid He) in Hm. discriminate. }
    destruct (IH mid envVars' k v H Hk) as [Hm | (Hm & Hinh & option' & envVar & Hin & ? & ?)].
    + destruct (step_origin _ _ _ _ _ Hmid Hm) as [? | (? & ? & envVar & ? & ?)]; [by left|].
      right. split_and!; try done. exists option, envVar. split_and!; try done.
      apply elem_of_cons. by left.
    + right. split_and!; [by apply Hnone | done |].
      exists option', envVar. split_and!; try done. apply elem_of_cons. by right.
Qed.

Lemma add_all_origin declared envVars envVars' k v :
  add_all step declared envVars = Ok envVars' → envVars' !! k = Some v →
  envVars !! k = Some v
  ∨ (envVars !! k = None ∧ inherited_from_object k = false ∧ declared_in declared k).
Proof.
  unfold add_all. intros H Hk. destruct (truthy declared).
  - apply rbind_ok_inv in H as (options & Hiter & H).
    destruct (fold_env_origin options _ _ _ _ H Hk)
      as [? | (? & ? & option & envVar & ? & ? & ?)]; [by left|].
    right. split_and!; try done. by exists options, option, envVar.
  - injection H as <-. by left.
Qed.

End Origin.

Section Provenance.

Lemma add_port_origin envVars option envVars' k v :
  add_port envVars option = Ok envVars' → envVars' !! k = Some v →
  envVars !! k = Some v
  ∨ (envVars !! k = None ∧ inherited_from_object k = false
     ∧ ∃ envVar, get_prop option "envVar" = Ok envVar ∧ to_string envVar = Ok k).
Proof.
  unfold add_port. intros H Hk.
  apply rbind_ok_inv in H as (envVar & HenvVar & H).
  apply rbind_ok_inv in H as (key & Hkey & H).
  destruct (in_env key envVars) eqn:Hin; simpl in H.
  - injection H as <-. by left.
  - apply rbind_ok_inv in H as (port & _ & H).
    apply rbind_ok_inv in H as (text & _ & H). injection H as <-.
    apply in_env_false in Hin as [Hnone Hinh].
    destruct (decide (key = k)) as [->|Hne].
    + right. split_and!; try done. by exists envVar.
    + left. by rewrite lookup_insert_ne in Hk.
Qed.

Lemma add_option_origin envVars option envVars' k v :
  add_option envVars option = Ok envVars' → envVars' !! k = Some v →
  envVars !! k = Some v
  ∨ (envVars !! k = None ∧ inherited_from_object k = false
     ∧ ∃ envVar, get_prop option "envVar" = Ok envVar ∧ to_string envVar = Ok k).
Proof.
  unfold add_option. intros H Hk.
  apply rbind_ok_inv in H as (envVar & HenvVar & H).
  apply rbind_ok_inv in H as (key & Hkey & H).
  destruct (in_env key envVars) eqn:Hin; simpl in H.
  - injection H as <-. by left.
  - apply rbind_ok_inv in H as (dflt & _ & H). injection H as <-.
    apply in_env_false in Hin as [Hnone Hinh].
    destruct (decide (key = k)) as [->|Hne].
    + right. split_and!; try done. by exists envVar.
    + left. by rewrite lookup_insert_ne in Hk.
Qed.

Lemma setEnvVars_origin penv config envVars k v :
  setEnvVars penv config = Ok envVars →
  envVars !! k = Some v →
  ∃ repo version directory,
    get_prop config "appRepository" = Ok repo
    ∧ get_prop config "appVersion" = Ok version
    ∧ get_prop config "appDirectory" = Ok directory
    ∧ (initial_env penv repo version directory !! k = Some v
       ∨ (initial_env penv repo version directory !! k = None
          ∧ inherited_from_object k = false
          ∧ ∃ declared,
              (get_prop config "ports" = Ok declared
               ∨ get_prop config "additionalOptions" = Ok declared)
              ∧ declared_in declared k)).
Proof.
  unfold setEnvVars. intros H Hk.
  apply rbind_ok_inv in H as (repo & Hrepo & H).
  apply rbind_ok_inv in H as (version & Hversion & H).
  apply rbind_ok_inv in H as (directory & Hdirectory & H).
  apply rbind_ok_inv in H as (ports & Hports & H).
  apply rbind_ok_inv in H as (mid & Hmid & H).
  apply rbind_ok_inv in H as (options & Hoptions & H).
  exists repo, version, directory. split_and!; try done.
  destruct (add_all_origin add_option add_option_adds_new add_option_origin
              _ _ _ _ _ H Hk) as [Hm | (Hm & Hinh & Hdecl)].
  - destruct (add_all_origin add_port add_port_adds_new add_port_origin
                _ _ _ _ _ Hmid Hm) as [? | (? & ? & ?)]; [by left|].
    right. split_and!; try done. exists ports. split; [by left | done].
  - right. split_and!; try done.
    + destruct (initial_env penv repo version directory !! k) as [v0|] eqn:Hi; [|done].
      rewrite (add_all_adds_new _ _ _ _ _ _ add_port_adds_new Hmid Hi) in Hm. discriminate.
    + exists options. split; [by right | done].
Qed.

(** X6. Every entry of the built mapping has one of three origins: it is an
    inherited variable, with its inherited value; or one of the three fixed
    keys, not inherited, with the value of the configuration; or a name
    declared by a port or an additional option that is neither inherited,
    nor a fixed key, nor a property name of [Object.prototype].  The builder
    invents no other key. *)
Theorem env_entries_have_an_origin
    (penv : gmap string string) (config : value) (envVars : gmap string value)
    (k : string) (v : value) :
  setEnvVars penv config = Ok envVars →
  envVars !! k = Some v →
  (∃ s, penv !! k = Some s ∧ v = VString s)
  ∨ (penv !! k = None
     ∧ ((k = "APP_REPO" ∧ get_prop config "appRepository" = Ok v)
        ∨ (k = "APP_VERSION" ∧ get_prop config "appVersion" = Ok v)
        ∨ (k = "APP_DIRECTORY" ∧ get_prop config "appDirectory" = Ok v)))
  ∨ (penv !! k = None
     ∧ (k ∉ ["APP_REPO"; "APP_VERSION"; "APP_DIRECTORY"])
     ∧ inherited_from_object k = false
     ∧ ∃ declared,
         (get_prop config "ports" = Ok declared
          ∨ get_prop config "additionalOptions" = Ok declared)
         ∧ declared_in declared k).
Proof.
  intros H Hk.
  destruct (setEnvVars_origin _ _ _ _ _ H Hk)
    as (repo & version & directory & Hrepo & Hversion & Hdirectory & Horigin).
  rewrite initial_env_lookup in Horigin.
  destruct (penv !! k) as [s|] eqn:Hp.
  { left. exists s. split; [done|]. destruct Horigin as [[= <-] | (? & _)]; done. }
  right. destruct Horigin as [Hfixed | (Hnone & Hinh & Hdecl)].
  - left. split; [done|]. repeat case_decide; try done; injection Hfixed as <-; subst; auto.
  - right. split_and!; try done.
    rewrite !not_elem_of_cons. repeat case_decide; try done.
    split_and!; try done. apply not_elem_of_nil.
Qed.

(** X7. A name that [Object.prototype] defines ([constructor], [toString],
    [valueOf], ...) is never added by the builder: such a key is in the
    mapping exactly when the process environment has it, whatever the
    configuration declares. *)
Theorem inherited_names_are_never_added
    (penv : gmap string string) (config : value) (envVars : gmap string value)
    (k : string) :
  setEnvVars penv config = Ok envVars →
  inherited_from_object k = true →
  envVars !! k = VString <$> (penv !! k).
Proof.
  intros H Hinh. destruct (penv !! k) as [s|] eqn:Hp; simpl.
  { by eapply setEnvVars_keeps_inherited. }
  destruct (envVars !! k) as [v|] eqn:Hk; [|done].
  destruct (setEnvVars_origin _ _ _ _ _ H Hk)
    as (repo & version & directory & _ & _ & _ & Horigin).
  rewrite initial_env_lookup, Hp in Horigin.
  destruct Horigin as [Hfixed | (_ & Hfalse & _)]; [|congruence].
  repeat case_decide; try done; subst; discriminate Hinh.
Qed.

End Provenance.

Lemma env_entries_have_an_origin_witness :
  (∃ s, demo_penv !! "MODE" = Some s ∧ VString "fast" = VString s)
  ∨ (demo_penv !! "MODE" = None
     ∧ (("MODE" = "APP_REPO"
         ∧ get_prop (demo_config false) "appRepository" = Ok (VString "fast"))
        ∨ ("MODE" = "APP_VERSION"
           ∧ get_prop (demo_config false) "appVersion" = Ok (VString "fast"))
        ∨ ("MODE" = "APP_DIRECTORY"
           ∧ get_prop (demo_config false) "appDirectory" = Ok (VString "fast"))))
  ∨ (demo_penv !! "MODE" = None
     ∧ ("MODE" ∉ ["APP_REPO"; "APP_VERSION"; "APP_DIRECTORY"])
     ∧ inherited_from_object "MODE" = false
     ∧ ∃ declared,
         (get_prop (demo_config false) "ports" = Ok declared
          ∨ get_prop (demo_config false) "additionalOptions" = Ok declared)
         ∧ declared_in declared "MODE").
Proof.
  apply (env_entries_have_an_origin demo_penv (demo_config false) demo_env
           "MODE" (VString "fast")).
  - vm_compute. reflexivity.
  - reflexivity.
Defined.

Lemma inherited_names_are_never_added_witness :
  setEnvVars ∅ constructor_config
  = Ok (initial_env ∅ (VString "https://example.org/demo.git") (VString "v1.2")
          (VString "app"))
  ∧ initial_env ∅ (VString "https://example.org/demo.git") (VString "v1.2")
      (VString "app") !! "constructor" = None.
Proof.
  assert (H : setEnvVars ∅ constructor_config
              = Ok (initial_env ∅ (VString "https://example.org/demo.git")
                      (VString "v1.2") (VString "app"))).
  { vm_compute. reflexivity. }
  split; [exact H|].
  exact (inherited_names_are_never_added ∅ constructor_config _ "constructor" H eq_refl).
Defined.

(** ** Declared ports and options *)

(** A port wins over an additional option of the same name: [PORT] is the
    numeral of the port, not the default ["1"] of the option. *)
Lemma first_declared_port_is_set_witness :
  ∃ envVars,
    setEnvVars demo_penv clash_config = Ok envVars
    ∧ envVars !! "PORT" = Some (VString "8080").
Proof.
  eexists. split; [vm_compute; reflexivity|].
  refine (first_declared_port_is_set demo_penv clash_fields
            [ ("type", VString "http"); ("envVar", VString "PORT");
              ("port", VNumber 8080) ] [] "PORT" 8080 _ eq_refl eq_refl eq_refl
            eq_refl eq_refl _ eq_refl _).
  - rewrite !not_elem_of_cons. split_and!; try done. apply not_elem_of_nil.
  - vm_compute. reflexivity.
Defined.

Section Options.

(** X9. Without declared ports, the first additional option is bound to its
    default when its name is neither inherited from the process environment,
    nor a fixed key, nor a property name of [Object.prototype].  The default
    is stored as it is in the configuration: it is not converted to a
    string, and a missing default is [undefined]. *)
Theorem first_declared_option_gets_default
    (penv : gmap string string) (o fields : list (string * value)) (rest : list value)
    (name : string) (envVars : gmap string value) :
  truthy (default VUndefined (own_property "ports" o)) = false →
  own_property "additionalOptions" o = Some (VArray (VObject fields :: rest)) →
  own_property "envVar" fields = Some (VString name) →
  penv !! name = None →
  name ∉ ["APP_REPO"; "APP_VERSION"; "APP_DIRECTORY"] →
  inherited_from_object name = false →
  setEnvVars penv (VObject o) = Ok envVars →
  envVars !! name = Some (default VUndefined (own_property "default" fields)).
Proof.
  intros Hports Hoptions HenvVar Hpenv Hfixed Hinherited H.
  unfold setEnvVars in H. simpl in H.
  apply rbind_ok_inv in H as (mid & Hmid & H).
  unfold add_all in Hmid. rewrite Hports in Hmid. injection Hmid as <-.
  rewrite Hoptions in H. unfold add_all in H. simpl in H.
  apply rbind_ok_inv in H as (first & Hfirst & H).
  eapply fold_env_adds_new; [apply add_option_adds_new | exact H |].
  rewrite (add_option_spec _ (VObject fields) name
             (default VUndefined (own_property "default" fields))) in Hfirst;
    [|simpl; by rewrite ?HenvVar..].
  assert (Hnew : in_env name
                   (initial_env penv (default VUndefined (own_property "appRepository" o))
                      (default VUndefined (own_property "appVersion" o))
                      (default VUndefined (own_property "appDirectory" o))) = false).
  { apply in_env_false. split; [|done]. rewrite initial_env_lookup, Hpenv.
    rewrite !not_elem_of_cons in Hfixed. destruct Hfixed as (? & ? & ? & _).
    repeat case_decide; done. }
  rewrite Hnew in Hfirst. injection Hfirst as <-. apply lookup_insert_eq.
Qed.

End Options.

(** The default [4] of [WORKERS] stays a number. *)
Lemma first_declared_option_gets_default_witness :
  ∃ envVars,
    setEnvVars demo_penv options_config = Ok envVars
    ∧ envVars !! "WORKERS" = Some (VNumber 4).
Proof.
  eexists. split; [vm_compute; reflexivity|].
  refine (first_declared_option_gets_default demo_penv options_fields
            [ ("envVar", VString "WORKERS"); ("default", VNumber 4);
              ("description", VString "worker count") ] [] "WORKERS" _
            eq_refl eq_refl eq_refl eq_refl _ eq_refl _).
  - rewrite !not_elem_of_cons. split_and!; try done. apply not_elem_of_nil.
  - vm_compute. reflexivity.
Defined.

Section IllTypedPorts.

Lemma main_throw_env w command baseDir dir config e :
  check_arguments w command baseDir = Ok dir →
  readConfig w dir = Ok config →
  setEnvVars (process_env w) config = Throw e →
  main w command baseDir = {| trace := []; reported := Some e; exit_code := 1 |}.
Proof.
  intros Hargs Hconfig Henv. unfold main, main_body.
  rewrite (bind_lift_ok _ _ dir) by done.
  rewrite (bind_lift_ok _ _ config) by done.
  by rewrite (bind_lift_throw _ _ e).
Qed.

(** X10. Validation does not look at [ports]: a configuration that passed
    it and whose [ports] is truthy but neither a list nor a string (a
    mapping, a number, [true]) makes the Environment Builder throw a
    [TypeError]; the run ends with status 1 before anything is executed. *)
Theorem non_iterable_ports_abort
    (w : World) (command baseDir : option string) (dir : string) (config ports : value) :
  check_arguments w command baseDir = Ok dir →
  readConfig w dir = Ok config →
  get_prop config "ports" = Ok ports →
  truthy ports = true →
  isArray ports = false →
  is_str ports = false →
  main w command baseDir
  = {| trace := []; reported := Some TypeError; exit_code := 1 |}.
Proof.
  intros Hargs Hconfig Hports Htruthy Harray Hstr.
  apply (main_throw_env w command baseDir dir config); try done.
  destruct (readConfig_ok_inv _ _ _ Hconfig) as [_ [o ->]].
  assert (Hthrow : ∀ envVars, add_all add_port ports envVars = Throw TypeError).
  { intros envVars. unfold add_all. rewrite Htruthy. by destruct ports. }
  unfold setEnvVars. simpl. simpl in Hports. injection Hports as ->.
  by rewrite Hthrow.
Qed.

End IllTypedPorts.

Lemma non_iterable_ports_abort_witness :
  main (demo_world demo_penv ports_mapping_config always always)
    (Some "install") (Some "/srv")
  = {| trace := []; reported := Some TypeError; exit_code := 1 |}.
Proof.
  exact (non_iterable_ports_abort
           (demo_world demo_penv ports_mapping_config always always)
           (Some "install") (Some "/srv") "/srv" ports_mapping_config
           (VObject [("PORT", VNumber 8080)])
           eq_refl eq_refl eq_refl eq_refl eq_refl eq_refl).
Defined.

(** ** The Repository Initializer and the Python Environment Provisioner *)

Section Initializer.

Variable w : World.

(** X11. For string fields the Repository Initializer runs [git clone
    <appRepository> "<appDirectory>"] and then [cd "<appDirectory>" && git
    checkout <appVersion>], both without shell, environment or working
    directory options.  When the clone fails the checkout is not attempted,
    and nothing is undone in either case. *)
Theorem initializeRepo_clone_then_checkout
    (config : value) (repo dir version : string) (tr : list event) :
  get_prop config "appRepository" = Ok (VString repo) →
  get_prop config "appDirectory" = Ok (VString dir) →
  get_prop config "appVersion" = Ok (VString version) →
  initializeRepo w config tr =
    if execSync w tr (clone_spawn repo dir)
    then (tr ++ [EvExec (clone_spawn repo dir); EvExec (checkout_spawn dir version)],
          if execSync w (tr ++ [EvExec (clone_spawn repo dir)]) (checkout_spawn dir version)
          then Ok tt else Throw SystemError)
    else (tr ++ [EvExec (clone_spawn repo dir)], Throw SystemError).
Proof.
  intros Hrepo Hdir Hversion. unfold initializeRepo.
  rewrite Hrepo, Hdir, Hversion. simpl.
  unfold bind, lift, exec. fold (clone_spawn repo dir).
  destruct (execSync w tr (clone_spawn repo dir)); [|done].
  fold (checkout_spawn dir version). by rewrite <-app_assoc.
Qed.

(** X12. The Python Environment Provisioner starts one child process for
    the kinds [venv] and [conda] (on [<appDirectory>/venv], and on the
    environment named [appId] with Python 3.8) and none for any other kind,
    [none], an unknown one or a missing [python] section, for which it
    succeeds without doing anything. *)
Theorem setupPythonEnvironment_by_kind
    (config kind : value) (dir id : string) (tr : list event) :
  python_environment config = Ok kind →
  get_prop config "appDirectory" = Ok (VString dir) →
  get_prop config "appId" = Ok (VString id) →
  ∃ r,
    setupPythonEnvironment w config tr
    = (tr ++ (EvExec <$> provisioning kind dir id), r)
    ∧ (provisioning kind dir id = [] → r = Ok tt)
    ∧ (∀ s, provisioning kind dir id = [s] →
            r = if execSync w tr s then Ok tt else Throw SystemError)
    ∧ (kind ≠ VString "venv" → kind ≠ VString "conda" → provisioning kind dir id = []).
Proof.
  intros Hkind Hdir Hid. unfold setupPythonEnvironment, provisioning.
  rewrite (bind_lift_ok _ _ kind) by done.
  destruct (is_string kind "venv") eqn:Hvenv.
  - rewrite Hdir. simpl. eexists. split; [reflexivity|]. split_and!; try done.
    + by intros s [= <-].
    + intros Hne. by apply is_string_eq in Hvenv.
  - rewrite (bind_lift_ok _ _ kind) by done.
    destruct (is_string kind "conda") eqn:Hconda.
    + rewrite Hid. simpl. eexists. split; [reflexivity|]. split_and!; try done.
      * by intros s [= <-].
      * intros _ Hne. by apply is_string_eq in Hconda.
    + exists (Ok tt). unfold ret. simpl. rewrite app_nil_r. by split_and!.
Qed.

End Initializer.

Lemma initializeRepo_clone_then_checkout_witness :
  initializeRepo (demo_world demo_penv (demo_config true) always always)
    (demo_config true) []
  = ([EvExec (clone_spawn "https://example.org/demo.git" "app");
      EvExec (checkout_spawn "app" "v1.2")], Ok tt)
  ∧ initializeRepo
      (demo_world demo_penv (demo_config true) always
         (fun cmd => negb (String.prefix "git clone" cmd)))
      (demo_config true) []
    = ([EvExec (clone_spawn "https://example.org/demo.git" "app")], Throw SystemError).
Proof.
  split.
  - exact (initializeRepo_clone_then_checkout
             (demo_world demo_penv (demo_config true) always always)
             (demo_config true) "https://example.org/demo.git" "app" "v1.2" []
             eq_refl eq_refl eq_refl).
  - exact (initializeRepo_clone_then_checkout
             (demo_world demo_penv (demo_config true) always
                (fun cmd => negb (String.prefix "git clone" cmd)))
             (demo_config true) "https://example.org/demo.git" "app" "v1.2" []
             eq_refl eq_refl eq_refl).
Defined.

Lemma setupPythonEnvironment_by_kind_witness :
  (setupPythonEnvironment (demo_world demo_penv (python_config "conda") always always)
     (python_config "conda") []).1
  = [EvExec (plain_spawn "conda create -n demo python=3.8 -y")]
  ∧ setupPythonEnvironment (demo_world demo_penv (python_config "pipenv") always always)
      (python_config "pipenv") []
    = ([], Ok tt).
Proof.
  split.
  - destruct (setupPythonEnvironment_by_kind
                (demo_world demo_penv (python_config "conda") always always)
                (python_config "conda") (VString "conda") "app" "demo" []
                eq_refl eq_refl eq_refl) as (r & -> & _).
    reflexivity.
  - destruct (setupPythonEnvironment_by_kind
                (demo_world demo_penv (python_config "pipenv") always always)
                (python_config "pipenv") (VString "pipenv") "app" "demo" []
                eq_refl eq_refl eq_refl) as (r & -> & Hnone & _).
    by rewrite (Hnone eq_refl).
Defined.

(** ** A full install *)

Section FullInstall.

Variable w : World.










End FullInstall.


(** ** Every failure ends the run *)

Section EveryFailure.

Variable w : World.

Lemma all_succeeded_nil : all_succeeded w [].
Proof. intros before e after H. by destruct before. Qed.

Lemma all_succeeded_only_last tr : all_succeeded w tr → only_last_failed w tr.
Proof. intros Hall before e after Htr Hfail. rewrite (Hall _ _ _ Htr) in Hfail. done. Qed.

Lemma all_succeeded_snoc tr e :
  all_succeeded w tr → succeeded w tr e = true → all_succeeded w (tr ++ [e]).
Proof.
  intros Hall Hok before e' after H.
  apply snoc_eq_middle in H as [(_ & -> & ->)|(after' & _ & Htr)]; [done|].
  by eapply Hall.
Qed.

Lemma only_last_failed_snoc tr e : all_succeeded w tr → only_last_failed w (tr ++ [e]).
Proof.
  intros Hall before e' after H Hfail.
  apply snoc_eq_middle in H as [(? & _)|(after' & _ & Htr)]; [done|].
  rewrite (Hall _ _ _ Htr) in Hfail. done.
Qed.

Lemma stops_lift {A} (r : result A) : stops_at_failure w (lift r).
Proof.
  intros tr Hall. unfold lift. destruct r; [done|]. by apply all_succeeded_only_last.
Qed.

Lemma stops_bind {A B} (m : M A) (k : A → M B) :
  stops_at_failure w m → (∀ a, stops_at_failure w (k a)) → stops_at_failure w (bind m k).
Proof.
  intros Hm Hk tr Hall. specialize (Hm tr Hall). unfold bind.
  destruct (m tr) as [tr' [a|e]]; [|done]. by apply Hk.
Qed.

Lemma stops_for_of {A} (l : list A) (body : A → M unit) :
  (∀ x, stops_at_failure w (body x)) → stops_at_failure w (for_of l body).
Proof.
  intros Hbody. induction l as [|x l IH]; simpl.
  - apply (stops_lift (Ok tt)).
  - apply stops_bind; [apply Hbody | intros _; apply IH].
Qed.

Lemma stops_chmod path mode : stops_at_failure w (chmod w path mode).
Proof.
  intros tr Hall. unfold chmod.
  destruct (chmodSync w tr path mode) eqn:Hok.
  - by apply all_succeeded_snoc.
  - by apply only_last_failed_snoc.
Qed.

Lemma stops_exec s : stops_at_failure w (exec w s).
Proof.
  intros tr Hall. unfold exec.
  destruct (execSync w tr s) eqn:Hok.
  - by apply all_succeeded_snoc.
  - by apply only_last_failed_snoc.
Qed.

Lemma stops_runScript script config envVars dir :
  stops_at_failure w (runScript w script config envVars dir).
Proof.
  unfold runScript.
  apply stops_bind; [apply stops_lift|]. intros activation.
  apply stops_bind; [apply stops_lift|]. intros text.
  apply stops_bind; [|intros _; apply stops_exec].
  destruct (endsWith text ".sh"); [apply stops_chmod | apply (stops_lift (Ok tt))].
Qed.

Lemma stops_main_body command baseDir : stops_at_failure w (main_body w command baseDir).
Proof.
  unfold main_body.
  apply stops_bind; [apply stops_lift|]. intros dir.
  apply stops_bind; [apply stops_lift|]. intros config.
  apply stops_bind; [apply stops_lift|]. intros envVars.
  destruct (is_command command "install").
  - unfold install. apply stops_bind; [apply stops_lift|]. intros autoInitialize.
    apply stops_bind.
    + destruct (truthy autoInitialize); [|apply (stops_lift (Ok tt))].
      apply stops_bind.
      * unfold initializeRepo.
        apply stops_bind; [apply stops_lift|]. intros repo.
        apply stops_bind; [apply stops_lift|]. intros appDirectory.
        apply stops_bind; [apply stops_exec|]. intros _.
        apply stops_bind; [apply stops_lift|]. intros appDirectory'.
        apply stops_bind; [apply stops_lift|]. intros version.
        apply stops_exec.
      * intros _. unfold setupPythonEnvironment.
        apply stops_bind; [apply stops_lift|]. intros environment.
        destruct (is_string environment "venv").
        -- apply stops_bind; [apply stops_lift|]. intros d. apply stops_exec.
        -- apply stops_bind; [apply stops_lift|]. intros environment'.
           destruct (is_string environment' "conda"); [|apply (stops_lift (Ok tt))].
           apply stops_bind; [apply stops_lift|]. intros id. apply stops_exec.
    + intros _. apply stops_bind; [apply stops_lift|]. intros scripts.
      apply stops_bind; [apply stops_lift|]. intros setup.
      apply stops_bind; [apply stops_lift|]. intros setupScripts.
      apply stops_for_of. intros script. apply stops_runScript.
  - destruct (is_command command "start"); [|apply (stops_lift (Ok tt))].
    unfold start. apply stops_bind; [apply stops_lift|]. intros scripts.
    apply stops_bind; [apply stops_lift|]. intros script. apply stops_runScript.
Qed.

(** X14. A run that ends with status 0 had no failure at all: every
    permission change and every child process of its trace succeeded. *)
Theorem exit_0_means_no_failure (command baseDir : option string) :
  exit_code (main w command baseDir) = 0%Z →
  all_succeeded w (trace (main w command baseDir)).
Proof.
  intros Hexit. unfold main in *.
  pose proof (stops_main_body command baseDir [] all_succeeded_nil) as H.
  by destruct (main_body w command baseDir []) as [tr [[]|e]].
Qed.

(** X15. A permission change that fails is the last event of the run: the
    script is not executed, no later setup script is touched, and the exit
    status is 1. *)
Theorem failed_chmod_ends_the_run
    (command baseDir : option string) (before after : list event) (path mode : string) :
  trace (main w command baseDir) = before ++ EvChmod path mode :: after →
  chmodSync w before path mode = false →
  after = [] ∧ exit_code (main w command baseDir) = 1%Z.
Proof.
  intros Htrace Hfail. unfold main in *.
  pose proof (stops_main_body command baseDir [] all_succeeded_nil) as H.
  destruct (main_body w command baseDir []) as [tr [[]|e]]; simpl in *; subst tr.
  - pose proof (H _ (EvChmod path mode) _ eq_refl) as Hok. simpl in Hok. congruence.
  - split; [|done]. by apply (H before (EvChmod path mode) after).
Qed.

End EveryFailure.

Lemma exit_0_means_no_failure_witness :
  all_succeeded (demo_world demo_penv (demo_config true) always always)
    (trace (main (demo_world demo_penv (demo_config true) always always)
              (Some "install") (Some "/srv"))).
Proof.
  apply exit_0_means_no_failure. vm_compute. reflexivity.
Defined.

(** [b.sh] cannot be made executable: [a.sh] has run, [b.sh] has not. *)
Lemma failed_chmod_ends_the_run_witness :
  let w := demo_world demo_penv (demo_config false) (except "b.sh") always in
  trace (main w (Some "install") (Some "/srv"))
  = [ EvChmod "/srv/a.sh" "755";
      EvExec (script_spawn "source app/venv/bin/activate && a.sh" demo_env "/srv");
      EvChmod "/srv/b.sh" "755" ]
  ∧ exit_code (main w (Some "install") (Some "/srv")) = 1%Z.
Proof.
  intros w.
  assert (Htrace : trace (main w (Some "install") (Some "/srv"))
            = [ EvChmod "/srv/a.sh" "755";
                EvExec (script_spawn "source app/venv/bin/activate && a.sh"
                          demo_env "/srv") ]
              ++ EvChmod "/srv/b.sh" "755" :: []).
  { vm_compute. reflexivity. }
  split; [exact Htrace|].
  exact (proj2 (failed_chmod_ends_the_run w (Some "install") (Some "/srv") _ []
                  "/srv/b.sh" "755" Htrace eq_refl)).
Defined.

(** ** Which scripts are made executable, and how much one call can do *)

Section Suffix.

Lemma substring_all s : String.substring 0 (String.length s) s = s.
Proof. induction s as [|c s IH]; simpl; [done | by rewrite IH]. Qed.

Lemma substring_skip p s m :
  String.substring (String.length p) m (p +:+ s) = String.substring 0 m s.
Proof. induction p as [|c p IH]; simpl; [done | apply IH]. Qed.

Lemma length_app_string p s :
  String.length (p +:+ s) = (String.length p + String.length s)%nat.
Proof. induction p as [|c p IH]; simpl; [done | by rewrite IH]. Qed.

Lemma substring_split s :
  ∀ k, (k ≤ String.length s)%nat →
       s = String.substring 0 k s +:+ String.substring k (String.length s - k) s.
Proof.
  induction s as [|c s IH]; intros k Hk; simpl in *.
  - by destruct k.
  - destruct k as [|k]; simpl.
    + by rewrite substring_all.
    + transitivity (String c (String.substring 0 k s
                              +:+ String.substring k (String.length s - k) s));
        [f_equal; apply IH; lia | reflexivity].
Qed.

(** The test [script.endsWith('.sh')] holds exactly of the strings that are
    some stem followed by the suffix. *)
Lemma endsWith_iff s suffix :
  endsWith s suffix = true ↔ ∃ stem, s = stem +:+ suffix.
Proof.
  unfold endsWith. split.
  - intros H. apply andb_prop in H as [Hle Heq].
    apply Nat.leb_le in Hle. apply String.eqb_eq in Heq.
    exists (String.substring 0 (String.length s - String.length suffix) s).
    pose proof (substring_split s (String.length s - String.length suffix)) as Hsplit.
    replace (String.length s - (String.length s - String.length suffix))%nat
      with (String.length suffix) in Hsplit by lia.
    rewrite Heq in Hsplit. apply Hsplit. lia.
  - intros [stem ->]. rewrite length_app_string.
    replace (String.length stem + String.length suffix - String.length suffix)%nat
      with (String.length stem) by lia.
    rewrite substring_skip, substring_all, String.eqb_refl, andb_true_r.
    apply Nat.leb_le. lia.
Qed.

End Suffix.

Section OneCall.

Variable w : World.

(** X16. The Script Runner changes the permissions of a script exactly when
    the configured string is some stem followed by [.sh]: the whole string
    is tested, so [bash a.sh] qualifies and [a.sh --force] does not. *)
Theorem chmod_exactly_for_sh_suffix
    (config : value) (envVars : gmap string value) (dir text prefix : string) :
  activationCommand config = Ok prefix →
  (∃ path mode,
     EvChmod path mode ∈ (runScript w (VString text) config envVars dir []).1)
  ↔ ∃ stem, text = stem +:+ ".sh".
Proof.
  intros Hprefix. rewrite <-endsWith_iff.
  rewrite (runScript_string w config envVars dir text prefix [] Hprefix). simpl.
  destruct (endsWith text ".sh"); split; try done.
  - intros _. exists (path_join w dir text), "755".
    destruct (chmodSync w [] (path_join w dir text) "755"); simpl;
      apply elem_of_cons; by left.
  - intros (path & mode & Hin). simpl in Hin.
    apply elem_of_cons in Hin as [?|Hin]; [done|]. by apply elem_of_nil in Hin.
Qed.

Lemma runScript_at_most_two script config envVars dir tr :
  ∃ new,
    (runScript w script config envVars dir tr).1 = tr ++ new
    ∧ (length new ≤ 2)%nat ∧ (length (executed new) ≤ 1)%nat.
Proof.
  unfold runScript.
  destruct (activationCommand config) as [activation|e]; simpl.
  2:{ exists []. rewrite app_nil_r. simpl. split_and!; [done | lia | lia]. }
  destruct (script_text script) as [text|e]; simpl.
  2:{ exists []. rewrite app_nil_r. simpl. split_and!; [done | lia | lia]. }
  unfold bind, lift. simpl.
  destruct (endsWith text ".sh"); simpl.
  - destruct (chmodSync w tr (path_join w dir text) "755"); simpl.
    + exists [EvChmod (path_join w dir text) "755";
              EvExec (script_spawn (activation +:+ text) envVars dir)].
      rewrite <-app_assoc. simpl. split_and!; [done | lia | lia].
    + exists [EvChmod (path_join w dir text) "755"]. simpl. split_and!; [done | lia | lia].
  - exists [EvExec (script_spawn (activation +:+ text) envVars dir)].
    simpl. split_and!; [done | lia | lia].
Qed.

(** X17. Whatever the world and the configuration, a [start] run executes
    at most one child process and leaves a trace of at most two events (a
    permission change and the execution). *)
Theorem start_executes_at_most_one_child (baseDir : option string) :
  (length (executed (trace (main w (Some "start") baseDir))) ≤ 1)%nat
  ∧ (length (trace (main w (Some "start") baseDir)) ≤ 2)%nat.
Proof.
  rewrite trace_main. unfold main_body.
  destruct (check_arguments w (Some "start") baseDir) as [dir|e]; [|simpl; lia].
  rewrite (bind_lift_ok _ _ dir) by done.
  destruct (readConfig w dir) as [config|e]; [|simpl; lia].
  rewrite (bind_lift_ok _ _ config) by done.
  destruct (setEnvVars (process_env w) config) as [envVars|e]; [|simpl; lia].
  rewrite (bind_lift_ok _ _ envVars) by done.
  change (is_command (Some "start") "install") with false.
  change (is_command (Some "start") "start") with true. cbv iota.
  unfold start.
  destruct (get_prop config "scripts") as [scripts|e]; [|simpl; lia].
  rewrite (bind_lift_ok _ _ scripts) by done.
  destruct (get_prop scripts "start") as [script|e]; [|simpl; lia].
  rewrite (bind_lift_ok _ _ script) by done.
  destruct (runScript_at_most_two script config envVars dir []) as (new & -> & ? & ?).
  done.
Qed.

End OneCall.

(** [bash a.sh] ends in [.sh]: the path that is made executable is the
    whole string under the base directory. *)
Lemma chmod_exactly_for_sh_suffix_witness :
  ∃ path mode,
    EvChmod path mode
    ∈ (runScript (demo_world demo_penv (demo_config false) always always)
         (VString "bash a.sh") (demo_config false) demo_env "/srv" []).1.
Proof.
  apply (proj2 (chmod_exactly_for_sh_suffix
                  (demo_world demo_penv (demo_config false) always always)
                  (demo_config false) demo_env "/srv" "bash a.sh"
                  "source app/venv/bin/activate && " eq_refl)).
  by exists "bash a".
Defined.

(** ** Setup entries that are not strings *)

Section NonStringEntry.

Variable w : World.

Lemma for_of_app {A} (l1 l2 : list A) (body : A → M unit) tr :
  for_of (l1 ++ l2) body tr =
    match for_of l1 body tr with
    | (tr', Ok _) => for_of l2 body tr'
    | (tr', Throw e) => (tr', Throw e)
    end.
Proof.
  revert tr. induction l1 as [|x l1 IH]; intros tr; simpl; [done|].
  unfold bind. destruct (body x tr) as [tr' [[]|e]]; [apply IH | done].
Qed.

(** X18. Validation only requires [scripts.setup] to be an array.  An entry
    that is not a string (a number, [null], a mapping) makes the Script
    Runner throw a [TypeError] when its turn comes: in a world where nothing
    else fails, the scripts before it have all run, nothing after it has,
    and the run ends with status 1. *)
Theorem non_string_setup_entry_aborts
    (baseDir : option string) (dir prefix : string)
    (config autoInitialize scripts entry : value) (envVars : gmap string value)
    (texts : list string) (rest : list value) :
  check_arguments w (Some "install") baseDir = Ok dir →
  readConfig w dir = Ok config →
  setEnvVars (process_env w) config = Ok envVars →
  activationCommand config = Ok prefix →
  get_prop config "autoInitialize" = Ok autoInitialize →
  truthy autoInitialize = false →
  get_prop config "scripts" = Ok scripts →
  get_prop scripts "setup" = Ok (VArray ((VString <$> texts) ++ entry :: rest)) →
  is_str entry = false →
  (∀ tr s, execSync w tr s = true) →
  (∀ tr path mode, chmodSync w tr path mode = true) →
  executed (trace (main w (Some "install") baseDir))
  = (fun text => script_spawn (prefix +:+ text) envVars dir) <$> texts
  ∧ reported (main w (Some "install") baseDir) = Some TypeError
  ∧ exit_code (main w (Some "install") baseDir) = 1%Z.
Proof.
  intros Hargs Hconfig Henv Hprefix Hauto Hfalsy Hscripts Hsetup Hentry Hexec Hchmod.
  destruct (run_setup_scripts w config envVars dir prefix Hprefix texts [])
    as (new & res & Hloop & _ & Hall & Hok).
  specialize (Hok Hexec Hchmod). subst res. specialize (Hall eq_refl).
  assert (Hthrow : ∀ tr, runScript w entry config envVars dir tr = (tr, Throw TypeError)).
  { intros tr. unfold runScript. rewrite (bind_lift_ok _ _ prefix) by done.
    by destruct entry. }
  assert (Hbody : main_body w (Some "install") baseDir [] = (new, Throw TypeError)).
  { rewrite (main_install w baseDir dir config envVars) by done.
    unfold install.
    rewrite (bind_lift_ok _ _ autoInitialize) by done. rewrite Hfalsy.
    unfold bind at 1. unfold ret at 1.
    rewrite (bind_lift_ok _ _ scripts) by done.
    rewrite (bind_lift_ok _ _ (VArray ((VString <$> texts) ++ entry :: rest))) by done.
    rewrite (bind_lift_ok _ _ ((VString <$> texts) ++ entry :: rest)) by done.
    rewrite for_of_app, Hloop. simpl.
    exact (for_of_throw (fun script => runScript w script config envVars dir)
             entry rest new new TypeError (Hthrow new)). }
  unfold main. rewrite Hbody. simpl. by rewrite Hall.
Qed.

End NonStringEntry.

(** The setup list [a.sh, 42, b.sh]: [a.sh] runs, the number stops the run. *)
Lemma non_string_setup_entry_aborts_witness :
  let w := demo_world demo_penv mixed_setup_config always always in
  ∃ envVars,
    setEnvVars demo_penv mixed_setup_config = Ok envVars
    ∧ executed (trace (main w (Some "install") (Some "/srv")))
      = [script_spawn "a.sh" envVars "/srv"]
    ∧ reported (main w (Some "install") (Some "/srv")) = Some TypeError.
Proof.
  intros w. eexists. split; [vm_compute; reflexivity|].
  refine (let H := non_string_setup_entry_aborts w (Some "/srv") "/srv" ""
                     mixed_setup_config VUndefined
                     (VObject [ ("setup", VArray [VString "a.sh"; VNumber 42; VString "b.sh"]);
                                ("start", VString "run.sh") ])
                     (VNumber 42) _ ["a.sh"] [VString "b.sh"]
                     eq_refl eq_refl _ eq_refl eq_refl eq_refl eq_refl eq_refl eq_refl
                     (fun _ _ => eq_refl) (fun _ _ _ => eq_refl) in
          conj (proj1 H) (proj1 (proj2 H))).
  vm_compute. reflexivity.
Defined.

(** ** Building the environment again *)

Section Stable.

Variable step : gmap string value → value → result (gmap string value).
Hypothesis step_adds_new : adds_new step.
Hypothesis step_stable :
  ∀ envVars option envVars' final,
    step envVars option = Ok envVars' →
    (∀ k v, envVars' !! k = Some v → final !! k = Some v) →
    step final option = Ok final.

Lemma fold_env_stable options :
  ∀ envVars envVars' final,
    fold_env step options envVars = Ok envVars' →
    (∀ k v, envVars' !! k = Some v → final !! k = Some v) →
    fold_env step options final = Ok final.
Proof.
  induction options as [|option rest IH]; simpl; intros envVars envVars' final H Hsub; [done|].
  apply rbind_ok_inv in H as (mid & Hmid & H).
  rewrite (step_stable envVars option mid final Hmid).
  - simpl. by eapply IH.
  - intros k v Hk. apply Hsub. by eapply fold_env_adds_new.
Qed.

Lemma add_all_stable declared envVars envVars' final :
  add_all step declared envVars = Ok envVars' →
  (∀ k v, envVars' !! k = Some v → final !! k = Some v) →
  add_all step declared final = Ok final.
Proof.
  unfold add_all. intros H Hsub. destruct (truthy declared); [|done].
  apply rbind_ok_inv in H as (options & -> & H). simpl. by eapply fold_env_stable.
Qed.

End Stable.

Section Rebuild.

Lemma initial_env_fixed penv repo version directory k :
  k ∈ ["APP_REPO"; "APP_VERSION"; "APP_DIRECTORY"] →
  is_Some (initial_env penv repo version directory !! k).
Proof.
  intros Hk. rewrite initial_env_lookup. destruct (penv !! k); [done|].
  rewrite !elem_of_cons, elem_of_nil in Hk.
  repeat case_decide; try done. tauto.
Qed.

Lemma in_env_mono k (envVars final : gmap string value) :
  (∀ k v, envVars !! k = Some v → final !! k = Some v) →
  in_env k envVars = true → in_env k final = true.
Proof.
  unfold in_env. intros Hsub H. destruct (envVars !! k) as [v|] eqn:Hk.
  - by rewrite (Hsub k v Hk).
  - simpl in H. rewrite H. apply orb_true_r.
Qed.

Lemma add_port_stable envVars option envVars' final :
  add_port envVars option = Ok envVars' →
  (∀ k v, envVars' !! k = Some v → final !! k = Some v) →
  add_port final option = Ok final.
Proof.
  unfold add_port. intros H Hsub.
  apply rbind_ok_inv in H as (envVar & HenvVar & H).
  apply rbind_ok_inv in H as (key & Hkey & H).
  rewrite HenvVar. simpl. rewrite Hkey. simpl.
  assert (Hin : in_env key envVars' = true).
  { destruct (in_env key envVars) eqn:Hin; simpl in H.
    - by injection H as <-.
    - apply rbind_ok_inv in H as (port & _ & H).
      apply rbind_ok_inv in H as (text & _ & H). injection H as <-.
      eapply in_env_defined. apply lookup_insert_eq. }
  by rewrite (in_env_mono key envVars' final Hsub Hin).
Qed.

Lemma add_option_stable envVars option envVars' final :
  add_option envVars option = Ok envVars' →
  (∀ k v, envVars' !! k = Some v → final !! k = Some v) →
  add_option final option = Ok final.
Proof.
  unfold add_option. intros H Hsub.
  apply rbind_ok_inv in H as (envVar & HenvVar & H).
  apply rbind_ok_inv in H as (key & Hkey & H).
  rewrite HenvVar. simpl. rewrite Hkey. simpl.
  assert (Hin : in_env key envVars' = true).
  { destruct (in_env key envVars) eqn:Hin; simpl in H.
    - by injection H as <-.
    - apply rbind_ok_inv in H as (dflt & _ & H). injection H as <-.
      eapply in_env_defined. apply lookup_insert_eq. }
  by rewrite (in_env_mono key envVars' final Hsub Hin).
Qed.

(** X19. The builder is stable: run again with the mapping it built as the
    inherited environment (a script that calls the tool on the same
    configuration), it builds the same mapping.  This holds whenever the
    built values are strings, as they are for a conforming configuration. *)
Theorem setEnvVars_is_stable
    (penv penv' : gmap string string) (config : value) :
  setEnvVars penv config = Ok (VString <$> penv') →
  setEnvVars penv' config = Ok (VString <$> penv').
Proof.
  intros H.
  destruct (setEnvVars_inv _ _ _ H) as (repo & version & directory & Hrepo & Hversion
                                         & Hdirectory & Hkeep).
  assert (Hinit : initial_env penv' repo version directory = VString <$> penv').
  { apply map_eq. intros k. rewrite initial_env_lookup, lookup_fmap.
    destruct (penv' !! k) as [s|] eqn:Hk; simpl; [done|].
    assert (Hfixed : ∀ v, initial_env penv repo version directory !! k = Some v → False).
    { intros v Hv. apply Hkeep in Hv. rewrite lookup_fmap, Hk in Hv. discriminate. }
    repeat case_decide; try done; subst; exfalso;
      (edestruct (initial_env_fixed penv repo version directory) as [v Hv];
       [|exact (Hfixed v Hv)]); rewrite !elem_of_cons; auto. }
  unfold setEnvVars in *. rewrite Hrepo, Hversion, Hdirectory in *. simpl in *.
  rewrite Hinit.
  apply rbind_ok_inv in H as (ports & Hports & H). rewrite Hports. simpl.
  apply rbind_ok_inv in H as (mid & Hmid & H).
  apply rbind_ok_inv in H as (options & Hoptions & H). 
  rewrite (add_all_stable add_port add_port_adds_new add_port_stable
             ports _ mid (VString <$> penv') Hmid).
  - simpl. rewrite Hoptions. simpl.
    by apply (add_all_stable add_option add_option_adds_new add_option_stable
                options mid (VString <$> penv') (VString <$> penv') H).
  - intros k v Hk. by eapply add_all_adds_new; [apply add_option_adds_new | exact H |].
Qed.

End Rebuild.

(** The mapping built for the sample configuration, as an environment of
    strings. *)
Lemma setEnvVars_is_stable_witness :
  let built : gmap string string :=
    <["MODE" := "fast"]> (<["PORT" := "8080"]> (<["APP_REPO" := "https://example.org/demo.git"]>
      (<["APP_VERSION" := "v1.2"]> (<["APP_DIRECTORY" := "app"]> demo_penv)))) in
  setEnvVars demo_penv (demo_config false) = Ok (VString <$> built)
  ∧ setEnvVars built (demo_config false) = Ok (VString <$> built).
Proof.
  intros built.
  assert (H : setEnvVars demo_penv (demo_config false) = Ok (VString <$> built)).
  { vm_compute. reflexivity. }
  split; [exact H|]. exact (setEnvVars_is_stable demo_penv built (demo_config false) H).
Defined.
